(** * Catena generic message decoder (TTN payload function)

    A shallow embedding of [extra/catena-message-generic-decoder-ttn.js]:
    the pure function [dewpoint] and the payload function [Decoder], which
    turns an uplink buffer and a port number into an object of named
    measurements.

    - JavaScript Numbers are IEEE 754 binary64 values, so every scaled
      measurement is a primitive [float], computed with the operations the
      source applies, in its order.  The raw 16-bit quantities the decoder
      assembles with [<<], [+], [&] and [>>] are integer-valued Numbers (or
      NaN once a byte is read past the end of the buffer) and are kept as
      [intnum].
    - [Math.log] is a parameter of the decoder; [Math.pow(2, n)] is the
      exact power of two.
    - The object [decoded] is a finite map from property names to values.
    - The statements of [Decoder] run in a state monad over the variables
      of a call: the index [i], the object [decoded] and the implicit
      global [cmd].

    The definitions come first: the JavaScript operators, the decoder, the
    tables of field groups per format, and the vocabulary of the wire
    format.  The lemmas follow: what each group does to the state, each
    branch as the run of its table, and the properties of the decoded
    object. *)

From Stdlib Require Import ZArith Reals Lra Floats Strings.Byte Lia.
From stdpp Require Import gmap strings list fin_maps.

Set Warnings "-inexact-float".
Open Scope Z_scope.

(** ** JavaScript values and operators used by the decoder *)

Module JS.

(** The values a property of [decoded] (or the global [cmd]) can hold. *)
Inductive jsval :=
| JUndef
| JNum (f : float)
| JStr (s : string).

(** An integer-valued Number; [None] is NaN. *)
Definition intnum : Type := option Z.

Definition NaNi : intnum := None.

Definition byte_val (b : byte) : Z := Z.of_N (Byte.to_N b).

(** [bytes[k]]: [None] is [undefined] (index outside the array). *)
Definition index (bytes : list byte) (k : Z) : option byte :=
  if k <? 0 then None else bytes !! Z.to_nat k.

(** ToNumber on an array element: [undefined] becomes NaN. *)
Definition ToNumber (v : option byte) : intnum :=
  match v with Some b => Some (byte_val b) | None => NaNi end.

(** ToInt32: NaN becomes 0, an integer wraps into [-2^31, 2^31). *)
Definition wrap32 (z : Z) : Z := (z + 2 ^ 31) mod 2 ^ 32 - 2 ^ 31.

Definition ToInt32 (n : intnum) : Z :=
  match n with Some z => wrap32 z | None => 0 end.

(** [a << k], [a >> k], [a & b], [a + b], [a - b] *)
Definition shl (a : intnum) (k : Z) : intnum :=
  Some (wrap32 (Z.shiftl (ToInt32 a) k)).

Definition shr (a : intnum) (k : Z) : intnum :=
  Some (Z.shiftr (ToInt32 a) k).

Definition band (a : intnum) (m : Z) : intnum :=
  Some (Z.land (ToInt32 a) (wrap32 m)).

Definition add (a b : intnum) : intnum :=
  match a, b with Some x, Some y => Some (x + y) | _, _ => NaNi end.

Definition sub (a b : intnum) : intnum :=
  match a, b with Some x, Some y => Some (x - y) | _, _ => NaNi end.

(** ToBoolean on a Number: false for 0 and NaN. *)
Definition truthy (n : intnum) : bool :=
  match n with Some z => negb (z =? 0) | None => false end.

(** The binary64 value of an integer (exact below 2^53). *)
Definition float_of_Z (z : Z) : float :=
  if z <? 0 then PrimFloat.opp (PrimFloat.of_uint63 (Uint63.of_Z (- z)))
  else PrimFloat.of_uint63 (Uint63.of_Z z).

Definition Num (n : intnum) : float :=
  match n with Some z => float_of_Z z | None => nan end.

(** A property value used as a Number: [undefined] and a string that is
    not numeric (the only string the decoder stores is "none") give NaN. *)
Definition numeric (v : jsval) : float :=
  match v with JNum f => f | JUndef => nan | JStr _ => nan end.

(** [bytes[k]] stored as a property value. *)
Definition of_element (v : option byte) : jsval :=
  match v with Some b => JNum (float_of_Z (byte_val b)) | None => JUndef end.

(** [v == n] for a Number literal [n]: [undefined] equals no Number. *)
Definition loose_eq (v : jsval) (n : Z) : bool :=
  match v with
  | JNum f => PrimFloat.eqb f (float_of_Z n)
  | JUndef => false
  | JStr _ => false
  end.

(** [Math.pow(2, e)] for an integer-valued [e]: the exact power of two. *)
Definition pow2 (e : intnum) : float :=
  match e with Some z => Z.ldexp 1%float z | None => nan end.

End JS.
Import JS.

(** ** The decoder *)

(** The variables of one call: the implicit global [cmd] (assigned without
    [var]), the index [i] into the message, and the object [decoded].
    [st_trace] is a ghost field: the values [i] has taken, oldest first. *)
Record state := State {
  st_cmd : jsval;
  st_i : Z;
  st_trace : list Z;
  st_decoded : gmap string jsval
}.

Definition M (A : Type) : Type := state → A * state.

#[global] Instance M_ret : MRet M := λ A a s, (a, s).
#[global] Instance M_bind : MBind M :=
  λ A B f m s, let '(a, s') := m s in f a s'.

Definition exec {A} (m : M A) (s : state) : state := snd (m s).

(** [var i = n] and [i += n] *)
Definition set_i (n : Z) : M unit :=
  λ s, (tt, State (st_cmd s) n (st_trace s ++ [n]) (st_decoded s)).

Definition skip (n : Z) : M unit :=
  λ s, (tt, State (st_cmd s) (st_i s + n) (st_trace s ++ [st_i s + n])
                  (st_decoded s)).

(** [decoded.k = v] and [decoded.k] *)
Definition put (k : string) (v : jsval) : M unit :=
  λ s, (tt, State (st_cmd s) (st_i s) (st_trace s) (<[k := v]> (st_decoded s))).

Definition prop (k : string) : M jsval :=
  λ s, (default JUndef (st_decoded s !! k), s).

(** [cmd = v] and [cmd] *)
Definition set_cmd (v : jsval) : M unit :=
  λ s, (tt, State v (st_i s) (st_trace s) (st_decoded s)).

Definition get_cmd : M jsval := λ s, (st_cmd s, s).

(** [if (c) { m }] *)
Definition when (c : bool) (m : M unit) : M unit :=
  λ s, if c then m s else (tt, s).

Section Decoder.

(** [Math.log] is supplied by the host engine. *)
Variable Math_log : float → float.

Definition dewpoint (t rh : float) : float :=
  let c1 := 243.04%float in
  let c2 := 17.625%float in
  let h := (rh / 100)%float in
  let h := if (h <=? 0.01)%float then 0.01%float
           else if (1.0 <? h)%float then 1.0%float
           else h in
  let lnh := Math_log h in
  let tpc1 := (t + c1)%float in
  let txc2 := (t * c2)%float in
  let txc2_tpc1 := (txc2 / tpc1)%float in
  let tdew := (c1 * (lnh + txc2_tpc1) / (c2 - lnh - txc2_tpc1))%float in
  tdew.

(** The message [bytes] is read-only during a call. *)
Variable bytes : list byte.

(** [bytes[i + k]] and [bytes[i++]] *)
Definition peek (k : Z) : M (option byte) :=
  λ s, (index bytes (st_i s + k), s).

Definition next : M (option byte) :=
  v ← peek 0; skip 1;; mret v.

(** [(bytes[i] << 8) + bytes[i + 1]] *)
Definition peek16 : M intnum :=
  hi ← peek 0; lo ← peek 1;
  mret (add (shl (ToNumber hi) 8) (ToNumber lo)).

(** [if (v & 0x8000) v += -0x10000], also written
    [if (v & 0x8000) v = -0x10000 + v] *)
Definition sign_extend (v : intnum) : intnum :=
  if truthy (band v 0x8000) then add v (Some (- 0x10000)) else v.

(** bit 0x1 of every format *)
Definition group_vBat : M unit :=
  vRaw ← peek16;
  skip 2;;
  let vRaw := sign_extend vRaw in
  put "vBat" (JNum (Num vRaw / 4096.0)).

(** bit 0x2 of every format *)
Definition group_vBus : M unit :=
  vRawBus ← peek16;
  skip 2;;
  let vRawBus := sign_extend vRawBus in
  put "vBus" (JNum (Num vRawBus / 4096.0)).

(** bit 0x4 of formats 0x14, 0x15, 0x17 *)
Definition group_boot : M unit :=
  iBoot ← peek 0;
  skip 1;;
  put "boot" (of_element iBoot).

(** temperature, pressure, RH: bit 0x8 of formats 0x14, 0x15, 0x17 and
    bit 0x4 of format 0x11 (the four copies are the same statements) *)
Definition group_env : M unit :=
  tRaw ← peek16;
  let tRaw := sign_extend tRaw in
  skip 2;;
  pRaw ← peek16;
  skip 2;;
  hRaw ← next;
  put "tempC" (JNum (Num tRaw / 256));;
  put "error" (JStr "none");;
  put "p" (JNum (Num pRaw * 4 / 100.0));;
  put "rh" (JNum (Num (ToNumber hRaw) / 256 * 100));;
  tempC ← prop "tempC"; rh ← prop "rh";
  put "tDewC" (JNum (dewpoint (numeric tempC) (numeric rh))).

(** lux: bit 0x10 of formats 0x14, 0x15, 0x17 and bit 0x8 of format 0x11 *)
Definition group_lux : M unit :=
  luxRaw ← peek16;
  skip 2;;
  put "lux" (JNum (Num luxRaw)).

(** watthour counters: bit 0x20 of format 0x14 *)
Definition group_power : M unit :=
  powerIn ← peek16;
  skip 2;;
  powerOut ← peek16;
  skip 2;;
  put "powerUsedCount" (JNum (Num powerIn));;
  put "powerSourcedCount" (JNum (Num powerOut)).

(** pulses per hour: bit 0x40 of format 0x14 *)
Definition group_rate : M unit :=
  floatIn ← peek16;
  skip 2;;
  floatOut ← peek16;
  skip 2;;
  let exp1 := shr floatIn 12 in
  let exp2 := shr floatOut 12 in
  let mant1 := (Num (band floatIn 0xFFF) / 4096.0)%float in
  let mant2 := (Num (band floatOut 0xFFF) / 4096.0)%float in
  let powerPerHourIn :=
    (mant1 * pow2 (sub exp1 (Some 15%Z)) * 60 * 60 * 4)%float in
  let powerPerHourOut :=
    (mant2 * pow2 (sub exp2 (Some 15%Z)) * 60 * 60 * 4)%float in
  put "powerUsedPerHour" (JNum powerPerHourIn);;
  put "powerSourcedPerHour" (JNum powerPerHourOut).

(** one-wire temperature: bit 0x20 of format 0x15 *)
Definition group_water : M unit :=
  tempRaw ← peek16;
  skip 2;;
  let tempRaw := sign_extend tempRaw in
  put "tWater" (JNum (Num tempRaw / 256)).

(** soil temperature followed by RH: bit 0x40 of format 0x15 *)
Definition group_soil : M unit :=
  tempRaw ← peek16;
  skip 2;;
  let tempRaw := sign_extend tempRaw in
  tempRH ← peek 0;
  skip 1;;
  put "tSoil" (JNum (Num tempRaw / 256));;
  put "rhSoil" (JNum (Num (ToNumber tempRH) / 256 * 100));;
  tSoil ← prop "tSoil"; rhSoil ← prop "rhSoil";
  put "tSoilDew" (JNum (dewpoint (numeric tSoil) (numeric rhSoil))).

(** one-wire temperature: bit 0x10 of format 0x11 (no sign step) *)
Definition group_water_0x11 : M unit :=
  tempRaw ← peek16;
  skip 2;;
  put "tWater" (JNum (Num tempRaw / 256)).

(** soil temperature followed by RH: bit 0x20 of format 0x11 (no sign step) *)
Definition group_soil_0x11 : M unit :=
  tempRaw ← peek16;
  skip 2;;
  tempRH ← peek 0;
  skip 1;;
  put "tSoil" (JNum (Num tempRaw / 256));;
  put "rhSoil" (JNum (Num (ToNumber tempRH) / 256 * 100));;
  tSoil ← prop "tSoil"; rhSoil ← prop "rhSoil";
  put "tSoilDew" (JNum (dewpoint (numeric tSoil) (numeric rhSoil))).

(** air quality index: bit 0x20 of format 0x17 *)
Definition group_aqi : M unit :=
  rawUflt16 ← peek16;
  skip 2;;
  let exp1 := shr rawUflt16 12 in
  let mant1 := (Num (band rawUflt16 0xFFF) / 4096.0)%float in
  let f_unscaled := (mant1 * pow2 (sub exp1 (Some 15%Z)))%float in
  let aqi := (f_unscaled * 512)%float in
  put "aqi" (JNum aqi).

(** [flags & m] as a condition *)
Definition flag (flags : option byte) (m : Z) : bool :=
  truthy (band (ToNumber flags) m).

(** The four branches. *)
Definition decode_0x14 : M unit :=
  set_i 1;;
  flags ← next;
  when (flag flags 0x1) group_vBat;;
  when (flag flags 0x2) group_vBus;;
  when (flag flags 0x4) group_boot;;
  when (flag flags 0x8) group_env;;
  when (flag flags 0x10) group_lux;;
  when (flag flags 0x20) group_power;;
  when (flag flags 0x40) group_rate.

Definition decode_0x15 : M unit :=
  set_i 1;;
  flags ← next;
  when (flag flags 0x1) group_vBat;;
  when (flag flags 0x2) group_vBus;;
  when (flag flags 0x4) group_boot;;
  when (flag flags 0x8) group_env;;
  when (flag flags 0x10) group_lux;;
  when (flag flags 0x20) group_water;;
  when (flag flags 0x40) group_soil.

Definition decode_0x11 : M unit :=
  set_i 1;;
  flags ← next;
  when (flag flags 0x1) group_vBat;;
  when (flag flags 0x2) group_vBus;;
  when (flag flags 0x4) group_env;;
  when (flag flags 0x8) group_lux;;
  when (flag flags 0x10) group_water_0x11;;
  when (flag flags 0x20) group_soil_0x11.

Definition decode_0x17 : M unit :=
  set_i 1;;
  flags ← next;
  when (flag flags 0x1) group_vBat;;
  when (flag flags 0x2) group_vBus;;
  when (flag flags 0x4) group_boot;;
  when (flag flags 0x8) group_env;;
  when (flag flags 0x10) group_lux;;
  when (flag flags 0x20) group_aqi.

(** The body of [if (port === 1)]. *)
Definition dispatch : M unit :=
  set_cmd (of_element (index bytes 0));;
  cmd ← get_cmd;
  if loose_eq cmd 0x14 then decode_0x14
  else
    cmd ← get_cmd;
    if loose_eq cmd 0x15 then decode_0x15
    else
      cmd ← get_cmd;
      if loose_eq cmd 0x11 then decode_0x11
      else
        cmd ← get_cmd;
        if loose_eq cmd 0x17 then decode_0x17
        else mret tt.

(** The state in which a call starts: [decoded = {}], [i] not yet
    assigned (never read before [var i = 1]; the placeholder is 0), and
    the global [cmd] holding whatever it held before the call. *)
Definition initial (g : jsval) : state := State g 0 [] ∅.

Definition run (g : jsval) (port : Z) : state :=
  exec (when (port =? 1) dispatch) (initial g).

(** [Decoder(bytes, port)] started with the global [cmd] equal to [g]:
    the returned object and the value left in [cmd]. *)
Definition Decoder (g : jsval) (port : Z) : gmap string jsval * jsval :=
  let s := run g port in (st_decoded s, st_cmd s).

End Decoder.

(** ** Field groups and layouts

    Every branch of [Decoder] is a sequence of guarded field groups.  The
    tables below record, for each group, the properties its statements are
    expected to write and the widths of the fields they consume, in order,
    and, for each format, which bit of the bitmap guards which group. *)

Inductive field_group :=
| VBat | VBus | Boot | Env | Lux | Power | Rate
| Water | Soil | Water_0x11 | Soil_0x11 | Aqi.

#[global] Instance field_group_eq_decision : EqDecision field_group.
Proof. solve_decision. Defined.

Definition g_keys (g : field_group) : list string :=
  match g with
  | VBat => ["vBat"]
  | VBus => ["vBus"]
  | Boot => ["boot"]
  | Env => ["tempC"; "error"; "p"; "rh"; "tDewC"]
  | Lux => ["lux"]
  | Power => ["powerUsedCount"; "powerSourcedCount"]
  | Rate => ["powerUsedPerHour"; "powerSourcedPerHour"]
  | Water | Water_0x11 => ["tWater"]
  | Soil | Soil_0x11 => ["tSoil"; "rhSoil"; "tSoilDew"]
  | Aqi => ["aqi"]
  end.

Definition g_widths (g : field_group) : list Z :=
  match g with
  | VBat | VBus | Lux | Water | Water_0x11 | Aqi => [2]
  | Boot => [1]
  | Env => [2; 2; 1]
  | Power | Rate => [2; 2]
  | Soil | Soil_0x11 => [2; 1]
  end.

Definition layout (fmt : byte) : list (Z * field_group) :=
  match fmt with
  | x14 => [(0x1, VBat); (0x2, VBus); (0x4, Boot); (0x8, Env); (0x10, Lux);
            (0x20, Power); (0x40, Rate)]
  | x15 => [(0x1, VBat); (0x2, VBus); (0x4, Boot); (0x8, Env); (0x10, Lux);
            (0x20, Water); (0x40, Soil)]
  | x11 => [(0x1, VBat); (0x2, VBus); (0x4, Env); (0x8, Lux);
            (0x10, Water_0x11); (0x20, Soil_0x11)]
  | x17 => [(0x1, VBat); (0x2, VBus); (0x4, Boot); (0x8, Env); (0x10, Lux);
            (0x20, Aqi)]
  | _ => []
  end.

#[global] Instance byte_eq_decision : EqDecision byte := Byte.byte_eq_dec.

Definition recognized : list byte := [x11; x14; x15; x17].

Definition total (ws : list Z) : Z := foldr Z.add 0 ws.

Definition width (g : field_group) : Z := total (g_widths g).

Definition keys_of (gs : list field_group) : list string := gs ≫= g_keys.

Definition widths_of (gs : list field_group) : list Z := gs ≫= g_widths.

(** The values of the index after consuming fields of widths [ws] from [i]. *)
Fixpoint steps (i : Z) (ws : list Z) : list Z :=
  match ws with
  | [] => []
  | w :: ws' => (i + w) :: steps (i + w) ws'
  end.

(** The groups a bitmap selects, in payload order. *)
Definition selected (flags : option byte) (L : list (Z * field_group))
  : list field_group :=
  snd <$> filter (λ bg, flag flags (fst bg) = true) L.

(** The groups of a format that come before the one guarded by [bit]. *)
Fixpoint before (bit : Z) (L : list (Z * field_group)) : list (Z * field_group) :=
  match L with
  | [] => []
  | bg :: L' => if fst bg =? bit then [] else bg :: before bit L'
  end.

(** Where the group guarded by [bit] starts in a message of format [fmt]
    with bitmap [flags]: after the format byte, the bitmap and the groups
    selected before it. *)
Definition offset (fmt : byte) (flags : option byte) (bit : Z) : Z :=
  2 + total (widths_of (selected flags (before bit (layout fmt)))).

Section Layout.

Variable Math_log : float → float.
Variable bytes : list byte.

(** The statements of each group. *)
Definition g_run (g : field_group) : M unit :=
  match g with
  | VBat => group_vBat bytes
  | VBus => group_vBus bytes
  | Boot => group_boot bytes
  | Env => group_env Math_log bytes
  | Lux => group_lux bytes
  | Power => group_power bytes
  | Rate => group_rate bytes
  | Water => group_water bytes
  | Soil => group_soil Math_log bytes
  | Water_0x11 => group_water_0x11 bytes
  | Soil_0x11 => group_soil_0x11 Math_log bytes
  | Aqi => group_aqi bytes
  end.

Fixpoint run_groups (gs : list field_group) : M unit :=
  match gs with
  | [] => mret tt
  | g :: gs' => g_run g;; run_groups gs'
  end.

Fixpoint run_layout (flags : option byte) (L : list (Z * field_group))
  : M unit :=
  match L with
  | [] => mret tt
  | (b, g) :: L' => when (flag flags b) (g_run g);; run_layout flags L'
  end.

Definition decode_of (fmt : byte) : M unit :=
  match fmt with
  | x14 => decode_0x14 Math_log bytes
  | x15 => decode_0x15 Math_log bytes
  | x11 => decode_0x11 Math_log bytes
  | x17 => decode_0x17 Math_log bytes
  | _ => mret tt
  end.

(** The state after [cmd = bytes[0]], and after
    [var i = 1; var flags = bytes[i++];]. *)
Definition entered : state := State (of_element (index bytes 0)) 0 [] ∅.

Definition after_flags (s : state) : state :=
  State (st_cmd s) 2 (st_trace s ++ [1; 2]) (st_decoded s).

End Layout.

(** ** Reading the wire format

    The quantities the wire format is described with: a big-endian 16-bit
    value, its reading as a signed two's-complement number (the value minus
    65536 when bit 15 is set), and the 4-bit exponent and 12-bit mantissa of
    a mini-float. *)

Definition be16 (hi lo : byte) : Z := 256 * byte_val hi + byte_val lo.

Definition int16 (v : Z) : Z := if Z.testbit v 15 then v - 65536 else v.

Definition top4 (v : Z) : Z := v / 4096.

Definition low12 (v : Z) : Z := v mod 4096.

(** The value of a mini-float: the low 12 bits over 4096, times two to the
    power of the top 4 bits minus 15. *)
Definition minifloat (v : Z) : float :=
  (float_of_Z (low12 v) / 4096 * Z.ldexp 1 (top4 v - 15))%float.

(** ** A reference natural logarithm

    [Math.log] is specified by ECMAScript only as an
    implementation-approximated natural logarithm.  [RefLog.log] is the
    algorithm of fdlibm's [e_log.c], the one common engines use for
    [Math.log], in binary64 arithmetic; it stands for the host function
    wherever a message is decoded by evaluation.  The tests fdlibm makes on
    the high word of its argument are made here on the significand [y] in
    [1, 2). *)

Module RefLog.

Definition ln2_hi : float := 0x1.62e42fee00000p-1%float.
Definition ln2_lo : float := 0x1.a39ef35793c76p-33%float.
Definition Lg1 : float := 0x1.5555555555593p-1%float.
Definition Lg2 : float := 0x1.999999997fa04p-2%float.
Definition Lg3 : float := 0x1.2492494229359p-2%float.
Definition Lg4 : float := 0x1.c71c51d8e78afp-3%float.
Definition Lg5 : float := 0x1.7466496cb03dep-3%float.
Definition Lg6 : float := 0x1.39a09d078c69fp-3%float.
Definition Lg7 : float := 0x1.2f112df3e5244p-3%float.

Definition log (x : float) : float :=
  if PrimFloat.is_nan x then x
  else if (x =? 0)%float then neg_infinity
  else if (x <? 0)%float then nan
  else if PrimFloat.is_infinity x then x
  else
    let '(m, e) := Z.frexp x in
    let y := (2 * m)%float in
    (* normalize x or x/2 into [sqrt(2)/2, sqrt(2)) *)
    let '(xn, k) :=
      if (0x1.6a09cp0 <=? y)%float then ((y / 2)%float, e) else (y, e - 1) in
    let f := (xn - 1)%float in
    let dk := float_of_Z k in
    if ((y <? 0x1.00001p0) || (0x1.ffffep0 <=? y))%float then
      (* -2**-20 <= f < 2**-20 *)
      if (f =? 0)%float then
        if k =? 0 then 0%float else (dk * ln2_hi + dk * ln2_lo)%float
      else
        let R := (f * f * (0.5 - 0.33333333333333333 * f))%float in
        if k =? 0 then (f - R)%float
        else (dk * ln2_hi - ((R - dk * ln2_lo) - f))%float
    else
      let s := (f / (2 + f))%float in
      let z := (s * s)%float in
      let w := (z * z)%float in
      let t1 := (w * (Lg2 + w * (Lg4 + w * Lg6)))%float in
      let t2 := (z * (Lg1 + w * (Lg3 + w * (Lg5 + w * Lg7))))%float in
      let R := (t2 + t1)%float in
      if ((0x1.6147ap0 <=? y) && (y <? 0x1.6b852p0))%float then
        let hfsq := (0.5 * f * f)%float in
        if k =? 0 then (f - (hfsq - s * (hfsq + R)))%float
        else (dk * ln2_hi - ((hfsq - (s * (hfsq + R) + dk * ln2_lo)) - f))%float
      else
        if k =? 0 then (f - s * (f - R))%float
        else (dk * ln2_hi - ((s * (f - R) - dk * ln2_lo) - f))%float.

End RefLog.

(** The binary64 values within [n] units in the last place of [x]. *)
Fixpoint ulps_up (n : nat) (x : float) : list float :=
  match n with
  | O => []
  | S n' => next_up x :: ulps_up n' (next_up x)
  end.

Fixpoint ulps_down (n : nat) (x : float) : list float :=
  match n with
  | O => []
  | S n' => next_down x :: ulps_down n' (next_down x)
  end.

Definition within_ulps (n : nat) (x y : float) : Prop :=
  y ∈ x :: ulps_up n x ++ ulps_down n x.

(** [x] and [y] agree to [d] significant decimal digits when their
    difference is at most half a unit of the [d]-th digit of [y]; for
    17.236466758309017 and [d = 6] that is 0.00005. *)
Definition close (tol x y : float) : bool := (abs (x - y) <=? tol)%float.

(** The natural logarithm of 0.76171875, rounded to binary64. *)
Definition ln_0_76171875 : float := (-0x1.16b5ccbacfb73p-2)%float.

(** The Magnus formula at a humidity ratio [h], with constants [c1], [c2]. *)
Definition magnus (Math_log : float → float) (c1 c2 t h : float) : float :=
  (c1 * (Math_log h + t * c2 / (t + c1))
   / (c2 - Math_log h - t * c2 / (t + c1)))%float.

(** The dew point stored under [kd] is [dewpoint] of the temperature and
    humidity stored under [kt] and [kh]. *)
Definition dew_consistent (Math_log : float → float) (kt kh kd : string)
    (d : gmap string jsval) : Prop :=
  ∀ v, d !! kd = Some v →
       v = JNum (dewpoint Math_log (numeric (default JUndef (d !! kt)))
                                   (numeric (default JUndef (d !! kh)))).

(** The fields a message of format [fmt] with bitmap [flags] is read as,
    after the format byte: the bitmap, then the fields of the selected
    groups. *)
Definition fields (fmt : byte) (flags : option byte) : list Z :=
  1 :: widths_of (selected flags (layout fmt)).

(** ** The logarithm over the reals

    The real number a finite binary64 value stands for, and the partial
    sums of the series of [exp (- x)] at a rational [x = p / q] as fractions
    of integers: they tie the constant [ln_0_76171875] to the real
    logarithm. *)

Definition SF2R (f : spec_float) : R :=
  match f with
  | S754_finite s m e =>
      (IZR (if s then Z.neg m else Z.pos m) * powerRZ 2 e)%R
  | _ => 0%R
  end.

(** The terms of the series of [exp (- x)], without their signs. *)
Definition exp_term (x : R) (n : nat) : R := (x ^ n / INR (fact n))%R.

Fixpoint exp_den (q : Z) (n : nat) : Z :=
  match n with
  | O => 1
  | S n' => exp_den q n' * (q * Z.of_nat n)
  end.

Fixpoint exp_num (p q : Z) (n : nat) : Z :=
  match n with
  | O => 1
  | S n' => exp_num p q n' * (q * Z.of_nat n) + (- p) ^ Z.of_nat n
  end.

(** The dew point over the reals, in the words of the specification:
    [h = clamp(RH/100, 0.01, 1.0)], [lnh = ln(h)] and
    [c1*(lnh + t*c2/(t+c1)) / (c2 - lnh - t*c2/(t+c1))] with c1 = 243.04
    and c2 = 17.625. *)
Definition dewpoint_real (t rh : R) : R :=
  let c1 := 243.04%R in
  let c2 := 17.625%R in
  let h := Rmax 0.01 (Rmin (rh / 100) 1.0) in
  (c1 * (ln h + t * c2 / (t + c1)) / (c2 - ln h - t * c2 / (t + c1)))%R.

(** An object whose properties are all Numbers. *)
Definition object (l : list (string * float)) : gmap string jsval :=
  foldr (λ kv m, <[fst kv := JNum (snd kv)]> m) ∅ l.

(** ** Vocabulary of the further properties *)

(** Every byte value, in increasing order. *)
Definition all_bytes : list byte :=
  omap (λ n, Byte.of_N (N.of_nat n)) (seq 0 256).

(** A test on the two bytes of a 16-bit field, made on all 65536 pairs. *)
Definition on_all_pairs (P : byte → byte → bool) : bool :=
  forallb (λ hi, forallb (P hi) all_bytes) all_bytes.

(** How many bytes of a message a call looks at: the format byte alone
    when the format is not recognized, otherwise the format byte, the bitmap
    and the fields of the selected groups. *)
Definition consumed (bytes : list byte) : Z :=
  match index bytes 0 with
  | Some f =>
      if decide (f ∈ recognized) then 1 + total (fields f (index bytes 1))
      else 1
  | None => 1
  end.

(** The ratio [dewpoint] takes the logarithm of when the humidity byte is
    [b]: [b / 256], floored at 0.01. *)
Definition humidity_ratio (b : byte) : float :=
  if byte_val b <=? 2 then 0.01%float
  else (float_of_Z (byte_val b) / 256)%float.

(** ** Basic facts about the monad *)

Lemma exec_bind {A B} (m : M A) (f : A → M B) s :
  exec (m ≫= f) s = exec (f (fst (m s))) (exec m s).
Proof. unfold exec, mbind, M_bind. by destruct (m s). Qed.

Lemma exec_when c m s : exec (when c m) s = if c then exec m s else s.
Proof. unfold exec, when. by destruct c. Qed.

Lemma exec_ret {A} (a : A) s : exec (mret a) s = s.
Proof. done. Qed.

Arguments dewpoint : simpl never.

Ltac run_group :=
  cbv beta iota zeta delta
    [exec g_run g_keys g_widths width total steps foldr
     group_vBat group_vBus group_boot group_env group_lux group_power
     group_rate group_water group_soil group_water_0x11 group_soil_0x11
     group_aqi next peek16 peek skip put prop set_i set_cmd get_cmd
     mbind M_bind mret M_ret snd fst st_i st_cmd st_trace st_decoded].

(** ** Footprints

    What a group does to the variables of the call: it leaves [cmd] alone,
    advances [i] by the widths of its fields, one field at a time, writes
    exactly its own properties and no other. *)

Section Footprints.

Variable Math_log : float → float.
Variable bytes : list byte.

Lemma fp_cmd g s : st_cmd (exec (g_run Math_log bytes g) s) = st_cmd s.
Proof. destruct s, g; reflexivity. Qed.

Lemma fp_i g s : st_i (exec (g_run Math_log bytes g) s) = st_i s + width g.
Proof. destruct s, g; run_group; lia. Qed.

Lemma fp_trace g s :
  st_trace (exec (g_run Math_log bytes g) s) = st_trace s ++ steps (st_i s) (g_widths g).
Proof. destruct s, g; run_group; rewrite <- ?app_assoc; reflexivity. Qed.

Lemma fp_dom g s :
  dom (st_decoded (exec (g_run Math_log bytes g) s)) =
  list_to_set (g_keys g) ∪ dom (st_decoded s).
Proof.
  destruct s, g; run_group; rewrite ?dom_insert_L; cbn;
    apply set_eq; intros x;
    rewrite ?elem_of_union, ?elem_of_singleton, elem_of_empty; tauto.
Qed.

Lemma fp_frame g s k :
  k ∉ g_keys g → st_decoded (exec (g_run Math_log bytes g) s) !! k = st_decoded s !! k.
Proof.
  intros Hk.
  destruct s, g; run_group; cbn in Hk; rewrite ?lookup_insert_ne;
    try reflexivity; intros <-; apply Hk; rewrite ?elem_of_cons; tauto.
Qed.

End Footprints.

(** ** Sequences of groups *)

Lemma steps_app i ws1 ws2 :
  steps i (ws1 ++ ws2) = steps i ws1 ++ steps (i + total ws1) ws2.
Proof.
  revert i. induction ws1 as [|w ws1 IH]; intros i.
  - cbn. by rewrite Z.add_0_r.
  - replace (i + total (w :: ws1)) with (i + w + total ws1)
      by (unfold total; cbn; lia).
    cbn. by rewrite IH.
Qed.

Lemma total_app ws1 ws2 : total (ws1 ++ ws2) = total ws1 + total ws2.
Proof.
  induction ws1 as [|w ws1 IH]; [done|].
  change (w + total (ws1 ++ ws2) = w + total ws1 + total ws2). lia.
Qed.

Section RunGroups.

Variable Math_log : float → float.
Variable bytes : list byte.

Implicit Types (g : field_group) (gs : list field_group) (s : state).

Lemma exec_run_groups_cons g gs s :
  exec (run_groups Math_log bytes (g :: gs)) s = exec (run_groups Math_log bytes gs) (exec (g_run Math_log bytes g) s).
Proof. cbn [run_groups]. by rewrite exec_bind. Qed.

Lemma exec_run_groups_app gs1 gs2 s :
  exec (run_groups Math_log bytes (gs1 ++ gs2)) s = exec (run_groups Math_log bytes gs2) (exec (run_groups Math_log bytes gs1) s).
Proof.
  revert s. induction gs1 as [|g gs1 IH]; intros s; [done|].
  by rewrite <- app_comm_cons, !exec_run_groups_cons, IH.
Qed.

Lemma run_groups_cmd gs s : st_cmd (exec (run_groups Math_log bytes gs) s) = st_cmd s.
Proof.
  revert s. induction gs as [|g gs IH]; intros s; [done|].
  by rewrite exec_run_groups_cons, IH, fp_cmd.
Qed.

Lemma run_groups_i gs s :
  st_i (exec (run_groups Math_log bytes gs) s) = st_i s + total (widths_of gs).
Proof.
  revert s. induction gs as [|g gs IH]; intros s.
  - cbn. lia.
  - rewrite exec_run_groups_cons, IH, fp_i.
    change (widths_of (g :: gs)) with (g_widths g ++ widths_of gs).
    unfold width. rewrite total_app. lia.
Qed.

Lemma run_groups_trace gs s :
  st_trace (exec (run_groups Math_log bytes gs) s) = st_trace s ++ steps (st_i s) (widths_of gs).
Proof.
  revert s. induction gs as [|g gs IH]; intros s.
  - cbn. by rewrite app_nil_r.
  - rewrite exec_run_groups_cons, IH, fp_trace, fp_i.
    change (widths_of (g :: gs)) with (g_widths g ++ widths_of gs).
    unfold width. by rewrite steps_app, app_assoc.
Qed.

Lemma run_groups_dom gs s :
  dom (st_decoded (exec (run_groups Math_log bytes gs) s)) =
  list_to_set (keys_of gs) ∪ dom (st_decoded s).
Proof.
  revert s. induction gs as [|g gs IH]; intros s.
  - cbn. by rewrite (left_id_L ∅ (∪)).
  - rewrite exec_run_groups_cons, IH, fp_dom.
    change (keys_of (g :: gs)) with (g_keys g ++ keys_of gs).
    rewrite list_to_set_app_L. apply set_eq; intros x.
    rewrite !elem_of_union. tauto.
Qed.

Lemma run_groups_frame gs s k :
  k ∉ keys_of gs → st_decoded (exec (run_groups Math_log bytes gs) s) !! k = st_decoded s !! k.
Proof.
  revert s. induction gs as [|g gs IH]; intros s Hk; [done|].
  change (keys_of (g :: gs)) with (g_keys g ++ keys_of gs) in Hk.
  rewrite elem_of_app in Hk.
  rewrite exec_run_groups_cons, IH, fp_frame; [done | tauto | tauto].
Qed.

Lemma run_layout_selected flags L s :
  exec (run_layout Math_log bytes flags L) s = exec (run_groups Math_log bytes (selected flags L)) s.
Proof.
  revert s. induction L as [|[b g] L IH]; intros s; [done|].
  cbn [run_layout]. rewrite exec_bind, exec_when, IH.
  unfold selected. rewrite filter_cons. cbn [fst].
  destruct (flag flags b).
  - rewrite decide_True by done. rewrite fmap_cons.
    by rewrite exec_run_groups_cons.
  - by rewrite decide_False by done.
Qed.

End RunGroups.

(** ** Dispatch on the port and on the format byte *)

Section Dispatch.

Variable Math_log : float → float.
Variable bytes : list byte.

Lemma decode_of_layout f s :
  f ∈ recognized →
  exec (decode_of Math_log bytes f) s =
  exec (run_layout Math_log bytes (index bytes 1) (layout f)) (after_flags s).
Proof.
  intros Hf. destruct s as [c i tr d].
  assert (Hstart : ∀ k : option byte → M unit,
    exec (set_i 1;; flags ← next bytes; k flags) (State c i tr d) =
    exec (k (index bytes 1)) (after_flags (State c i tr d))).
  { intros k. rewrite !exec_bind. unfold after_flags.
    run_group. by rewrite <- app_assoc. }
  unfold recognized in Hf. rewrite !elem_of_cons in Hf.
  destruct Hf as [->|[->|[->|[->|Hf]]]]; [| | | |by apply elem_of_nil in Hf];
    cbn [decode_of layout run_layout];
    unfold decode_0x11, decode_0x14, decode_0x15, decode_0x17;
    rewrite Hstart; rewrite !exec_bind, exec_ret; reflexivity.
Qed.

Lemma run_other_port g port :
  port ≠ 1 → run Math_log bytes g port = initial g.
Proof.
  intros Hp. unfold run. rewrite exec_when.
  by destruct (Z.eqb_spec port 1).
Qed.

Lemma dispatch_recognized g f :
  index bytes 0 = Some f → f ∈ recognized →
  exec (dispatch Math_log bytes) (initial g) =
  exec (decode_of Math_log bytes f) (entered bytes).
Proof.
  intros H0 Hf. unfold dispatch, entered. rewrite H0.
  unfold recognized in Hf. rewrite !elem_of_cons in Hf.
  destruct Hf as [->|[->|[->|[->|Hf]]]]; [| | | |by apply elem_of_nil in Hf];
    reflexivity.
Qed.

Lemma dispatch_unrecognized g :
  (∀ f, index bytes 0 = Some f → f ∉ recognized) →
  exec (dispatch Math_log bytes) (initial g) = entered bytes.
Proof.
  intros Hf. unfold dispatch, entered.
  destruct (index bytes 0) as [f|]; [|reflexivity].
  specialize (Hf f eq_refl). unfold recognized in Hf.
  rewrite !not_elem_of_cons in Hf. destruct Hf as (?&?&?&?&_).
  destruct f; try done; reflexivity.
Qed.

Lemma run_recognized g f :
  index bytes 0 = Some f → f ∈ recognized →
  run Math_log bytes g 1 =
  exec (run_groups Math_log bytes (selected (index bytes 1) (layout f)))
       (after_flags (entered bytes)).
Proof.
  intros H0 Hf. unfold run. rewrite exec_when. cbn [Z.eqb Pos.eqb].
  by rewrite (dispatch_recognized g f), decode_of_layout, run_layout_selected.
Qed.

Lemma run_unrecognized g :
  (∀ f, index bytes 0 = Some f → f ∉ recognized) →
  run Math_log bytes g 1 = entered bytes.
Proof.
  intros Hf. unfold run. rewrite exec_when. cbn [Z.eqb Pos.eqb].
  by apply dispatch_unrecognized.
Qed.

End Dispatch.

(** ** Reading the wire format: arithmetic *)

Lemma byte_val_range b : 0 ≤ byte_val b < 256.
Proof.
  unfold byte_val. pose proof (Byte.to_N_bounded b). lia.
Qed.

Lemma be16_range hi lo : 0 ≤ be16 hi lo < 65536.
Proof.
  unfold be16. pose proof (byte_val_range hi). pose proof (byte_val_range lo).
  lia.
Qed.

Lemma wrap32_small z : - 2 ^ 31 ≤ z < 2 ^ 31 → wrap32 z = z.
Proof.
  intros Hz. unfold wrap32. rewrite Z.mod_small; lia.
Qed.

Lemma raw16 hi lo :
  add (shl (ToNumber (Some hi)) 8) (ToNumber (Some lo)) = Some (be16 hi lo).
Proof.
  pose proof (byte_val_range hi). pose proof (byte_val_range lo).
  unfold shl, ToNumber, ToInt32, add, be16.
  rewrite (wrap32_small (byte_val hi)) by lia.
  rewrite Z.shiftl_mul_pow2 by lia.
  rewrite wrap32_small by lia. f_equal. lia.
Qed.

Lemma land_pow2 a n :
  0 ≤ n → Z.land a (2 ^ n) = if Z.testbit a n then 2 ^ n else 0.
Proof.
  intros Hn. apply Z.bits_inj'. intros m Hm.
  rewrite Z.land_spec, Z.pow2_bits_eqb by lia.
  destruct (Z.eqb_spec n m) as [->|Hne].
  - destruct (Z.testbit a m); [by rewrite Z.pow2_bits_true | by rewrite Z.bits_0].
  - rewrite andb_false_r.
    destruct (Z.testbit a n); [by rewrite Z.pow2_bits_false | by rewrite Z.bits_0].
Qed.

Lemma truthy_band_pow2 z n :
  - 2 ^ 31 ≤ z < 2 ^ 31 → 0 ≤ n < 31 →
  truthy (band (Some z) (2 ^ n)) = Z.testbit z n.
Proof.
  intros Hz Hn. unfold truthy, band, ToInt32.
  assert (0 < 2 ^ n < 2 ^ 31) by (split; [lia | apply Z.pow_lt_mono_r; lia]).
  rewrite !wrap32_small by lia. rewrite land_pow2 by lia.
  destruct (Z.testbit z n); [|done].
  by destruct (Z.eqb_spec (2 ^ n) 0); [lia|].
Qed.

Lemma sign_extend_int16 v :
  0 ≤ v < 65536 → sign_extend (Some v) = Some (int16 v).
Proof.
  intros Hv. unfold sign_extend, int16.
  change (band (Some v) 32768) with (band (Some v) (2 ^ 15)).
  rewrite (truthy_band_pow2 v 15) by lia.
  destruct (Z.testbit v 15); [cbn; f_equal; lia | done].
Qed.

Lemma sign_extend_NaN : sign_extend NaNi = NaNi.
Proof. reflexivity. Qed.

(** The reading as a signed number is the two's-complement one. *)
Lemma int16_twos_complement v :
  0 ≤ v < 65536 →
  - 32768 ≤ int16 v < 32768 ∧ (int16 v) mod 65536 = v.
Proof.
  intros Hv. unfold int16.
  assert (Hb : Z.testbit v 15 = (32768 <=? v)).
  { rewrite Z.testbit_eqb by lia. change (2 ^ 15) with 32768.
    assert (v / 32768 = 0 ∨ v / 32768 = 1) as [Hq|Hq].
    { assert (0 ≤ v / 32768 < 2); [|lia].
      split; [apply Z.div_pos; lia | apply Z.div_lt_upper_bound; lia]. }
    - rewrite Hq. assert (v < 32768) by (apply Z.div_small_iff in Hq; lia).
      by destruct (Z.leb_spec 32768 v); [lia|].
    - rewrite Hq.
      assert (32768 ≤ v) by (pose proof (Z.div_mod v 32768); pose proof (Z.mod_pos_bound v 32768); lia).
      by destruct (Z.leb_spec 32768 v); [|lia]. }
  rewrite Hb. destruct (Z.leb_spec 32768 v).
  - split; [lia|].
    replace (v - 65536) with (v + (-1) * 65536) by lia.
    rewrite Z.mod_add by lia. apply Z.mod_small; lia.
  - split; [lia | apply Z.mod_small; lia].
Qed.

Lemma flag_testbit b m n :
  m = 2 ^ n → 0 ≤ n < 31 → flag (Some b) m = Z.testbit (byte_val b) n.
Proof.
  intros -> Hn. unfold flag, ToNumber. pose proof (byte_val_range b).
  apply truthy_band_pow2; lia.
Qed.

Lemma flag_undefined m : flag None m = false.
Proof. reflexivity. Qed.

(** [v >> 12] and [v & 0xFFF] of a 16-bit value *)
Lemma shr12 v : 0 ≤ v < 65536 → shr (Some v) 12 = Some (top4 v).
Proof.
  intros Hv. unfold shr, ToInt32, top4. rewrite wrap32_small by lia.
  by rewrite Z.shiftr_div_pow2 by lia.
Qed.

Lemma band_0xFFF v : 0 ≤ v < 65536 → band (Some v) 0xFFF = Some (low12 v).
Proof.
  intros Hv. unfold band, ToInt32, low12. rewrite !wrap32_small by lia.
  change 0xFFF with (Z.ones 12). by rewrite Z.land_ones by lia.
Qed.

(** ** Locating a group in a decoded message *)

Lemma selected_app flags L1 L2 :
  selected flags (L1 ++ L2) = selected flags L1 ++ selected flags L2.
Proof. unfold selected. by rewrite filter_app, fmap_app. Qed.

Lemma selected_cons_true flags b g L :
  flag flags b = true → selected flags ((b, g) :: L) = g :: selected flags L.
Proof.
  intros Hb. unfold selected. rewrite filter_cons. cbn [fst].
  by rewrite decide_True by done.
Qed.

Lemma selected_cons_false flags b g L :
  flag flags b = false → selected flags ((b, g) :: L) = selected flags L.
Proof.
  intros Hb. unfold selected. rewrite filter_cons. cbn [fst].
  rewrite decide_False; [done | by rewrite Hb].
Qed.

Lemma keys_of_selected flags L k :
  k ∈ keys_of (selected flags L) → k ∈ keys_of (snd <$> L).
Proof.
  unfold keys_of, selected. rewrite !list_elem_of_bind.
  intros (g & Hk & Hg). exists g. split; [done|].
  apply list_elem_of_fmap in Hg as (bg & -> & Hbg).
  apply list_elem_of_filter in Hbg as [_ Hbg].
  apply list_elem_of_fmap. by exists bg.
Qed.

Lemma recognized_0x11 : x11 ∈ recognized.
Proof. unfold recognized. rewrite !elem_of_cons. auto. Qed.

Lemma recognized_0x14 : x14 ∈ recognized.
Proof. unfold recognized. rewrite !elem_of_cons. auto. Qed.

Lemma recognized_0x15 : x15 ∈ recognized.
Proof. unfold recognized. rewrite !elem_of_cons. auto. Qed.

Lemma recognized_0x17 : x17 ∈ recognized.
Proof. unfold recognized. rewrite !elem_of_cons. auto 10. Qed.

Ltac recognized_cases H :=
  unfold recognized in H; rewrite !elem_of_cons in H;
  destruct H as [->|[->|[->|[->|H]]]]; [| | | |by apply elem_of_nil in H].

Lemma widths_selected_cons flags b g L :
  total (widths_of (selected flags ((b, g) :: L))) =
  (if flag flags b then width g else 0) + total (widths_of (selected flags L)).
Proof.
  destruct (flag flags b) eqn:E.
  - rewrite selected_cons_true by done.
    change (widths_of (g :: ?gs)) with (g_widths g ++ widths_of gs).
    by rewrite total_app.
  - by rewrite selected_cons_false by done.
Qed.

Ltac offset_formula :=
  unfold offset; cbn [layout before fst Z.eqb Pos.eqb];
  rewrite !widths_selected_cons; cbn;
  repeat match goal with
         | |- context [if ?c then _ else _] => destruct c
         end; reflexivity.

(** Where the fields named in the statements below start. *)
Lemma offset_vBus f flags :
  f ∈ recognized → offset f flags 0x2 = if flag flags 0x1 then 4 else 2.
Proof. intros Hf. recognized_cases Hf; offset_formula. Qed.

Lemma offset_0x11_tempC flags :
  offset x11 flags 0x4 =
  2 + (if flag flags 0x1 then 2 else 0) + (if flag flags 0x2 then 2 else 0).
Proof. offset_formula. Qed.

Lemma offset_0x11_tWater flags :
  offset x11 flags 0x10 =
  2 + (if flag flags 0x1 then 2 else 0) + (if flag flags 0x2 then 2 else 0)
    + (if flag flags 0x4 then 5 else 0) + (if flag flags 0x8 then 2 else 0).
Proof. offset_formula. Qed.

Lemma offset_0x17_aqi flags :
  offset x17 flags 0x20 =
  2 + (if flag flags 0x1 then 2 else 0) + (if flag flags 0x2 then 2 else 0)
    + (if flag flags 0x4 then 1 else 0) + (if flag flags 0x8 then 5 else 0)
    + (if flag flags 0x10 then 2 else 0).
Proof. offset_formula. Qed.

Section Locate.

Variable Math_log : float → float.
Variable bytes : list byte.

(** When the bitmap selects the group [g] guarded by [bit], the properties
    of [g] that no later group writes are the ones [g] wrote, and [g] ran
    with [i] at [offset]. *)
Lemma run_located gl f bit g L2 k :
  index bytes 0 = Some f → f ∈ recognized →
  layout f = before bit (layout f) ++ (bit, g) :: L2 →
  flag (index bytes 1) bit = true →
  k ∉ keys_of (snd <$> L2) →
  ∃ s, st_i s = offset f (index bytes 1) bit ∧
       st_decoded (run Math_log bytes gl 1) !! k =
       st_decoded (exec (g_run Math_log bytes g) s) !! k.
Proof.
  intros H0 Hf HL Hbit Hk.
  rewrite (run_recognized Math_log bytes gl f H0 Hf), HL.
  rewrite selected_app, selected_cons_true by done.
  rewrite exec_run_groups_app, exec_run_groups_cons.
  eexists. split; [|apply run_groups_frame].
  - by rewrite run_groups_i.
  - intros Hin. by apply Hk, (keys_of_selected (index bytes 1)).
Qed.

Lemma value_vBat s hi lo :
  index bytes (st_i s) = Some hi → index bytes (st_i s + 1) = Some lo →
  st_decoded (exec (g_run Math_log bytes VBat) s) !! "vBat" =
  Some (JNum (float_of_Z (int16 (be16 hi lo)) / 4096)).
Proof.
  intros Hhi Hlo. destruct s as [c i tr d]. cbn [st_i] in *. run_group.
  rewrite lookup_insert_eq, Z.add_0_r, Hhi, Hlo, raw16.
  by rewrite sign_extend_int16 by apply be16_range.
Qed.

Lemma value_vBus s hi lo :
  index bytes (st_i s) = Some hi → index bytes (st_i s + 1) = Some lo →
  st_decoded (exec (g_run Math_log bytes VBus) s) !! "vBus" =
  Some (JNum (float_of_Z (int16 (be16 hi lo)) / 4096)).
Proof.
  intros Hhi Hlo. destruct s as [c i tr d]. cbn [st_i] in *. run_group.
  rewrite lookup_insert_eq, Z.add_0_r, Hhi, Hlo, raw16.
  by rewrite sign_extend_int16 by apply be16_range.
Qed.

End Locate.

(** C1.  In each of the four formats on port 1, when bit 0x01 of the bitmap
    is set [vBat] is the two bytes after the bitmap read as a big-endian
    16-bit value, taken as a signed two's-complement number and divided by
    4096; when bit 0x02 is set the same holds of [vBus] and the two bytes
    that follow [vBat] (or the bitmap, when bit 0x01 is clear).  Raw 0x1800
    gives 1.5 and raw 0xF800 gives -0.5. *)
Theorem voltage_signed_scaled Math_log bytes g f flags :
  index bytes 0 = Some f → f ∈ recognized → index bytes 1 = Some flags →
  let dec := fst (Decoder Math_log bytes g 1) in
  let at_vBus := if Z.testbit (byte_val flags) 0 then 4 else 2 in
  (Z.testbit (byte_val flags) 0 = true →
   ∀ hi lo, index bytes 2 = Some hi → index bytes 3 = Some lo →
     dec !! "vBat" = Some (JNum (float_of_Z (int16 (be16 hi lo)) / 4096)))
  ∧ (Z.testbit (byte_val flags) 1 = true →
     ∀ hi lo, index bytes at_vBus = Some hi →
       index bytes (at_vBus + 1) = Some lo →
       dec !! "vBus" = Some (JNum (float_of_Z (int16 (be16 hi lo)) / 4096)))
  ∧ (float_of_Z (int16 (be16 x18 x00)) / 4096 = 1.5)%float
  ∧ (float_of_Z (int16 (be16 xf8 x00)) / 4096 = -0.5)%float.
Proof.
  intros H0 Hf H1 dec at_vBus. subst dec. cbn [Decoder fst].
  split; [|split; [|split; reflexivity]].
  - intros Hbit hi lo Hhi Hlo.
    destruct (run_located Math_log bytes g f 0x1 VBat
                (tail (layout f)) "vBat" H0 Hf) as (s & Hi & ->).
    + by recognized_cases Hf.
    + rewrite H1. by rewrite (flag_testbit flags 0x1 0).
    + recognized_cases Hf; cbn; rewrite ?not_elem_of_cons;
        repeat split; try discriminate; apply not_elem_of_nil.
    + apply value_vBat; rewrite Hi; by recognized_cases Hf.
  - intros Hbit hi lo Hhi Hlo.
    destruct (run_located Math_log bytes g f 0x2 VBus
                (tail (tail (layout f))) "vBus" H0 Hf) as (s & Hi & ->).
    + by recognized_cases Hf.
    + rewrite H1. by rewrite (flag_testbit flags 0x2 1).
    + recognized_cases Hf; cbn; rewrite ?not_elem_of_cons;
        repeat split; try discriminate; apply not_elem_of_nil.
    + assert (Hoff : offset f (index bytes 1) 0x2 = at_vBus).
      { rewrite (offset_vBus f _ Hf), H1. subst at_vBus.
        by rewrite (flag_testbit flags 0x1 0). }
      apply value_vBus; rewrite Hi, Hoff; done.
Qed.

(** ** Order on binary64 values

    The comparisons of [dewpoint] read through the specification of the
    primitive operations. *)

Lemma SFcompare_flip x y c :
  SFcompare x y = Some c → SFcompare y x = Some (CompOpp c).
Proof.
  destruct x as [sx|sx| |sx mx ex], y as [sy|sy| |sy my ey]; cbn;
    try destruct sx; try destruct sy; intros [= <-]; try reflexivity.
  all: rewrite (Z.compare_antisym ey ex); destruct (ey ?= ex); cbn;
    rewrite ?CompOpp_involutive, ?(Pos.compare_cont_antisym _ _ Eq);
    reflexivity.
Qed.

Lemma ltb_not_leb x y : (x <? y)%float = true → (y <=? x)%float = false.
Proof.
  rewrite FloatAxioms.ltb_spec, FloatAxioms.leb_spec. unfold SFltb, SFleb.
  destruct (SFcompare (Prim2SF x) (Prim2SF y)) as [[]|] eqn:E; try discriminate.
  intros _. by rewrite (SFcompare_flip _ _ _ E).
Qed.

Lemma leb_not_ltb x y : (x <=? y)%float = true → (y <? x)%float = false.
Proof.
  rewrite FloatAxioms.ltb_spec, FloatAxioms.leb_spec. unfold SFltb, SFleb.
  destruct (SFcompare (Prim2SF x) (Prim2SF y)) as [[]|] eqn:E; try discriminate;
  intros _; by rewrite (SFcompare_flip _ _ _ E).
Qed.

Lemma not_nan_spec x : PrimFloat.is_nan x = false → Prim2SF x ≠ S754_nan.
Proof.
  unfold PrimFloat.is_nan. rewrite FloatAxioms.eqb_spec. intros H E. rewrite E in H.
  discriminate.
Qed.

Lemma SFcompare_total x y :
  x ≠ S754_nan → y ≠ S754_nan → ∃ c, SFcompare x y = Some c.
Proof. destruct x, y; cbn; intros; try done; eauto. Qed.

(** total order away from NaN *)
Lemma not_leb_ltb x y :
  PrimFloat.is_nan x = false → PrimFloat.is_nan y = false →
  (x <=? y)%float = false → (y <? x)%float = true.
Proof.
  intros Hx%not_nan_spec Hy%not_nan_spec.
  rewrite FloatAxioms.ltb_spec, FloatAxioms.leb_spec. unfold SFltb, SFleb.
  destruct (SFcompare_total _ _ Hx Hy) as [c E]. rewrite E.
  rewrite (SFcompare_flip _ _ _ E). by destruct c.
Qed.

Lemma not_ltb_leb x y :
  PrimFloat.is_nan x = false → PrimFloat.is_nan y = false →
  (x <? y)%float = false → (y <=? x)%float = true.
Proof.
  intros Hx%not_nan_spec Hy%not_nan_spec.
  rewrite FloatAxioms.ltb_spec, FloatAxioms.leb_spec. unfold SFltb, SFleb.
  destruct (SFcompare_total _ _ Hx Hy) as [c E]. rewrite E.
  rewrite (SFcompare_flip _ _ _ E). by destruct c.
Qed.

Lemma ltb_leb x y : (x <? y)%float = true → (x <=? y)%float = true.
Proof.
  rewrite FloatAxioms.ltb_spec, FloatAxioms.leb_spec. unfold SFltb, SFleb.
  by destruct (SFcompare (Prim2SF x) (Prim2SF y)) as [[]|].
Qed.

Lemma above_one_above_floor h :
  (1 <? h)%float = true → (h <=? 0.01)%float = false.
Proof.
  rewrite FloatAxioms.ltb_spec, FloatAxioms.leb_spec. unfold SFltb, SFleb.
  assert (E1 : Prim2SF 1 = S754_finite false 4503599627370496 (-52))
    by (vm_compute; reflexivity).
  assert (E2 : Prim2SF 0.01 = S754_finite false 5764607523034235 (-59))
    by (vm_compute; reflexivity).
  rewrite E1, E2.
  destruct (Prim2SF h) as [s|s| |s m e]; unfold SFcompare;
    try destruct s; try discriminate; try reflexivity.
  destruct (Z.compare_spec (-52) e), (Z.compare_spec e (-59));
    try discriminate; try reflexivity; lia.
Qed.

(** ** The logarithm of 0.76171875 *)

Section RealLog.

Local Open Scope R_scope.

Lemma exp_term_decreasing x : 0 <= x <= 1 -> Un_decreasing (exp_term x).
Proof.
  intros Hx n. unfold exp_term. rewrite fact_simpl, mult_INR. cbn [pow].
  assert (0 < INR (fact n)) by apply INR_fact_lt_0.
  assert (0 <= x ^ n) by (apply pow_le; lra).
  assert (1 <= INR (S n)) by (rewrite S_INR; pose proof (pos_INR n); lra).
  unfold Rdiv. rewrite Rinv_mult.
  replace (x * x ^ n * (/ INR (S n) * / INR (fact n)))
    with ((x * / INR (S n)) * (x ^ n * / INR (fact n))) by ring.
  rewrite <- (Rmult_1_l (x ^ n * / INR (fact n))) at 2.
  apply Rmult_le_compat_r.
  - apply Rmult_le_pos; [done|]. apply Rlt_le, Rinv_0_lt_compat. lra.
  - apply Rmult_le_reg_r with (INR (S n)); [lra|].
    rewrite Rmult_assoc, Rinv_l by lra. lra.
Qed.

Lemma exp_neg_bounds x N :
  0 <= x <= 1 ->
  sum_f_R0 (tg_alt (exp_term x)) (S (2 * N)) <= exp (- x)
  <= sum_f_R0 (tg_alt (exp_term x)) (2 * N).
Proof.
  intros Hx. apply alternated_series_ineq.
  - by apply exp_term_decreasing.
  - apply (cv_speed_pow_fact x).
  - unfold exp. destruct (exist_exp (- x)) as [l Hl]. cbn.
    unfold exp_in, infinite_sum in Hl. unfold Un_cv, tg_alt. intros eps Heps.
    destruct (Hl eps Heps) as [n0 Hn0]. exists n0. intros n Hn.
    replace (sum_f_R0 (fun i => (-1) ^ i * exp_term x i) n)
      with (sum_f_R0 (fun i => / INR (fact i) * (- x) ^ i) n); [by apply Hn0|].
    apply sum_eq. intros i _. unfold exp_term.
    replace (- x) with (-1 * x) by ring. rewrite Rpow_mult_distr. field.
    apply INR_fact_neq_0.
Qed.


Lemma exp_den_pos q n : (0 < q)%Z -> (0 < exp_den q n)%Z.
Proof. intros Hq. induction n as [|n IH]; cbn [exp_den]; lia. Qed.

Lemma alt_term_rational p q n :
  (0 < q)%Z ->
  tg_alt (exp_term (IZR p / IZR q)) n = IZR ((- p) ^ Z.of_nat n) / IZR (exp_den q n).
Proof.
  intros Hq. assert (IZR q <> 0) by (apply not_0_IZR; lia).
  induction n as [|n IH].
  - unfold tg_alt, exp_term. cbn. rewrite Z.pow_0_r. field.
  - assert (IZR (exp_den q n) <> 0) by (apply not_0_IZR; pose proof (exp_den_pos q n Hq); lia).
    assert (INR (S n) <> 0) by (apply not_0_INR; lia).
    replace (tg_alt (exp_term (IZR p / IZR q)) (S n))
      with (tg_alt (exp_term (IZR p / IZR q)) n * (- (IZR p / IZR q) / INR (S n))).
    + rewrite IH. rewrite Nat2Z.inj_succ, Z.pow_succ_r by lia.
      cbn [exp_den]. rewrite !mult_IZR, opp_IZR, <- INR_IZR_INZ.
      field; repeat split; assumption.
    + unfold tg_alt, exp_term. rewrite fact_simpl, mult_INR. cbn [pow].
      field; repeat split; first [assumption | apply INR_fact_neq_0].
Qed.

Lemma sum_rational p q n :
  (0 < q)%Z ->
  sum_f_R0 (tg_alt (exp_term (IZR p / IZR q))) n
  = IZR (exp_num p q n) / IZR (exp_den q n).
Proof.
  intros Hq. assert (IZR q <> 0) by (apply not_0_IZR; lia).
  induction n as [|n IH].
  - cbn. unfold tg_alt, exp_term. cbn. field.
  - assert (IZR (exp_den q n) <> 0) by (apply not_0_IZR; pose proof (exp_den_pos q n Hq); lia).
    assert (INR (S n) <> 0) by (apply not_0_INR; lia).
    cbn [sum_f_R0]. rewrite IH, alt_term_rational by done.
    cbn [exp_num exp_den]. rewrite plus_IZR, !mult_IZR, <- INR_IZR_INZ.
    field; repeat split; assumption.
Qed.

(** Comparing a fraction of integers with 195/256. *)
Lemma frac_lt a d : (0 < d)%Z -> (a * 256 < 195 * d)%Z -> IZR a / IZR d < 195 / 256.
Proof.
  intros Hd Hlt. apply IZR_lt in Hd, Hlt. rewrite !mult_IZR in Hlt.
  apply Rmult_lt_reg_r with (IZR d); [done|].
  unfold Rdiv at 1. rewrite Rmult_assoc, Rinv_l by lra. lra.
Qed.

Lemma frac_gt a d : (0 < d)%Z -> (195 * d < a * 256)%Z -> 195 / 256 < IZR a / IZR d.
Proof.
  intros Hd Hlt. apply IZR_lt in Hd, Hlt. rewrite !mult_IZR in Hlt.
  apply Rmult_lt_reg_r with (IZR d); [done|].
  unfold Rdiv at 2. rewrite Rmult_assoc, Rinv_l by lra. lra.
Qed.

(** [- 4903120902355827 / 2^54] is the natural logarithm of 195/256 rounded to nearest:
    the logarithm lies strictly within half a unit in the last place. *)
Lemma ln_195_256 :
  Rabs (ln (195 / 256) - - (IZR 4903120902355827 / IZR (2 ^ 54))) < / IZR (2 ^ 55).
Proof.
  set (qq := (2 ^ 55)%Z). set (pa := (2 * 4903120902355827 + 1)%Z). set (pb := (2 * 4903120902355827 - 1)%Z).
  assert (Hq : (0 < qq)%Z) by done.
  assert (Hlo : - (IZR pa / IZR qq) < ln (195 / 256)).
  { apply exp_lt_inv. rewrite exp_ln by lra.
    eapply Rle_lt_trans; [apply (exp_neg_bounds _ 7)|].
    - split.
      + apply Rmult_le_pos; [apply IZR_le; done|].
        apply Rlt_le, Rinv_0_lt_compat, IZR_lt. done.
      + apply Rmult_le_reg_r with (IZR qq); [by apply IZR_lt|].
        unfold Rdiv. rewrite Rmult_assoc, Rinv_l by (apply not_0_IZR; done).
        rewrite Rmult_1_r, Rmult_1_l. apply IZR_le. done.
    - rewrite sum_rational by done.
      apply frac_lt; [by apply exp_den_pos|]. vm_compute. reflexivity. }
  assert (Hhi : ln (195 / 256) < - (IZR pb / IZR qq)).
  { apply exp_lt_inv. rewrite exp_ln by lra.
    eapply Rlt_le_trans; [|apply (exp_neg_bounds _ 7)].
    - rewrite sum_rational by done.
      apply frac_gt; [by apply exp_den_pos|]. vm_compute. reflexivity.
    - split.
      + apply Rmult_le_pos; [apply IZR_le; done|].
        apply Rlt_le, Rinv_0_lt_compat, IZR_lt. done.
      + apply Rmult_le_reg_r with (IZR qq); [by apply IZR_lt|].
        unfold Rdiv. rewrite Rmult_assoc, Rinv_l by (apply not_0_IZR; done).
        rewrite Rmult_1_r, Rmult_1_l. apply IZR_le. done. }
  subst pa pb qq.
  let c := eval vm_compute in (2 ^ 55)%Z in change (2 ^ 55)%Z with c in *.
  let c := eval vm_compute in (2 ^ 54)%Z in change (2 ^ 54)%Z with c.
  let c := eval vm_compute in (2 * 4903120902355827 + 1)%Z in
    change (2 * 4903120902355827 + 1)%Z with c in Hlo.
  let c := eval vm_compute in (2 * 4903120902355827 - 1)%Z in
    change (2 * 4903120902355827 - 1)%Z with c in Hhi.
  apply Rabs_def1; lra.
Qed.


Lemma div_lt_bound a d c : 0 < d -> a < c * d -> a / d < c.
Proof.
  intros Hd Hlt. apply Rmult_lt_reg_r with d; [done|].
  unfold Rdiv. rewrite Rmult_assoc, Rinv_l by lra. lra.
Qed.

Lemma div_gt_bound a d c : 0 < d -> c * d < a -> c < a / d.
Proof.
  intros Hd Hlt. apply Rmult_lt_reg_r with d; [done|].
  unfold Rdiv. rewrite Rmult_assoc, Rinv_l by lra. lra.
Qed.

(** Over the reals the dew point at (21.61328125, 76.171875) is within
    10^-13 of 17.236466758309017. *)
Lemma dewpoint_real_test_vector :
  Rabs (dewpoint_real 21.61328125 76.171875 - 17.236466758309017)
  < 1 / 10 ^ 13.
Proof.
  unfold dewpoint_real.
  replace (76.171875 / 100) with (195 / 256) by lra.
  rewrite Rmin_left by lra. rewrite Rmax_right by lra.
  pose proof ln_195_256 as Hln. apply Rabs_def2 in Hln as [Hlo Hhi].
  let c := eval vm_compute in (2 ^ 55)%Z in change (2 ^ 55)%Z with c in *.
  let c := eval vm_compute in (2 ^ 54)%Z in change (2 ^ 54)%Z with c in *.
  set (l := ln (195 / 256)) in *.
  replace (21.61328125 * 17.625 / (21.61328125 + 243.04))
    with (19503825 / 13550248) by lra.
  assert (Hden : 0 < 17.625 - l - 19503825 / 13550248) by lra.
  assert (Hup : 243.04 * (l + 19503825 / 13550248)
                / (17.625 - l - 19503825 / 13550248)
                < 17.236466758309017 + 1 / 10 ^ 13).
  { apply div_lt_bound; lra. }
  assert (Hdn : 17.236466758309017 - 1 / 10 ^ 13
                < 243.04 * (l + 19503825 / 13550248)
                  / (17.625 - l - 19503825 / 13550248)).
  { apply div_gt_bound; lra. }
  apply Rabs_def1; lra.
Qed.

(** The constant [ln_0_76171875] is the natural logarithm of 0.76171875
    rounded to the nearest binary64 value. *)
Lemma ln_0_76171875_rounded :
  Rabs (ln (SF2R (Prim2SF 0.76171875)) - SF2R (Prim2SF ln_0_76171875))
  < / 2 ^ 55.
Proof.
  replace (Prim2SF 0.76171875)
    with (S754_finite false 6860952557322240 (-53))
    by (vm_compute; reflexivity).
  replace (Prim2SF ln_0_76171875)
    with (S754_finite true 4903120902355827 (-54))
    by (vm_compute; reflexivity).
  pose proof ln_195_256 as Hln. revert Hln.
  unfold SF2R, powerRZ. rewrite !(pow_IZR 2).
  repeat match goal with
         | |- context [IZR (2 ^ ?k)] =>
             let c := eval vm_compute in (2 ^ k)%Z in
             change (2 ^ k)%Z with c
         end.
  replace (IZR 6860952557322240 * / IZR 9007199254740992) with (195 / 256)
    by lra.
  replace (IZR (Z.neg 4903120902355827) * / IZR 18014398509481984)
    with (- (IZR 4903120902355827 / IZR 18014398509481984)) by lra.
  trivial.
Qed.

End RealLog.

(** ** The dew point *)

Lemma dewpoint_clamped Math_log t rh :
  ∃ h, dewpoint Math_log t rh = magnus Math_log 243.04 17.625 t h
       ∧ ((rh / 100 <=? 0.01)%float = true → h = 0.01%float)
       ∧ ((1.0 <? rh / 100)%float = true → h = 1.0%float)
       ∧ ((0.01 <? rh / 100)%float = true → (rh / 100 <=? 1.0)%float = true →
          h = (rh / 100)%float)
       ∧ (PrimFloat.is_nan (rh / 100) = false →
          (0.01 <=? h)%float = true ∧ (h <=? 1.0)%float = true).
Proof.
  unfold dewpoint, magnus.
  destruct (rh / 100 <=? 0.01)%float eqn:Elo;
    [|destruct (1.0 <? rh / 100)%float eqn:Ehi].
  - exists 0.01%float. repeat split; try done.
    + intros H%above_one_above_floor. congruence.
    + intros H%ltb_not_leb. congruence.
  - exists 1.0%float. repeat split; try done.
    intros _ H%leb_not_ltb. congruence.
  - exists (rh / 100)%float. repeat split; try done.
    + by apply ltb_leb, not_leb_ltb.
    + by apply not_ltb_leb.
Qed.

Lemma dewpoint_test_vector Math_log :
  within_ulps 1024 ln_0_76171875 (Math_log 0.76171875%float) →
  close 0x1p-40 (dewpoint Math_log 21.61328125 76.171875)
        17.236466758309017 = true
  ∧ close 0.00005 (dewpoint Math_log 21.61328125 76.171875)
          17.236466758309017 = true.
Proof.
  intros Hlog%list_elem_of_In.
  assert (Hall : forallb
    (λ l, let d := magnus (λ _, l) 243.04 17.625 21.61328125 0.76171875 in
          close 0x1p-40 d 17.236466758309017
          && close 0.00005 d 17.236466758309017)
    (ln_0_76171875 :: ulps_up 1024 ln_0_76171875
       ++ ulps_down 1024 ln_0_76171875) = true)
    by (vm_compute; reflexivity).
  apply andb_prop.
  exact (proj1 (forallb_forall _ _) Hall _ Hlog).
Qed.


(** ** What every call does *)

Section Calls.

Variable Math_log : float → float.
Variable bytes : list byte.

(** Either nothing is decoded, or the message is of a recognized format on
    port 1 and the selected groups of its layout run. *)
Lemma run_cases gl port :
  (st_decoded (run Math_log bytes gl port) = ∅
   ∧ st_trace (run Math_log bytes gl port) = []
   ∧ (port ≠ 1 ∨ ∀ f, index bytes 0 = Some f → f ∉ recognized))
  ∨ (port = 1 ∧ ∃ f, index bytes 0 = Some f ∧ f ∈ recognized ∧
     run Math_log bytes gl port =
     exec (run_groups Math_log bytes (selected (index bytes 1) (layout f)))
          (after_flags (entered bytes))).
Proof.
  destruct (decide (port = 1)) as [->|Hp];
    [|left; rewrite run_other_port by done; auto].
  assert (Hun : (∀ f, index bytes 0 = Some f → f ∉ recognized) →
    st_decoded (run Math_log bytes gl 1) = ∅
    ∧ st_trace (run Math_log bytes gl 1) = []
    ∧ (1 ≠ 1 ∨ ∀ f, index bytes 0 = Some f → f ∉ recognized)).
  { intros Hno. rewrite run_unrecognized by done. auto. }
  destruct (index bytes 0) as [f|] eqn:H0; [|left; apply Hun; congruence].
  destruct (decide (f ∈ recognized)) as [Hf|Hf].
  - right. split; [done|]. exists f. by rewrite (run_recognized _ _ gl f).
  - left. apply Hun. congruence.
Qed.

Lemma run_groups_invariant (P : gmap string jsval → Prop) :
  (∀ g s, P (st_decoded s) →
          P (st_decoded (exec (g_run Math_log bytes g) s))) →
  ∀ gs s, P (st_decoded s) →
          P (st_decoded (exec (run_groups Math_log bytes gs) s)).
Proof.
  intros Hstep gs. induction gs as [|g gs IH]; intros s Hs; [done|].
  rewrite exec_run_groups_cons. by apply IH, Hstep.
Qed.

(** A property of [decoded] that holds of the empty object and is kept by
    every group holds of the object returned. *)
Lemma decoded_invariant (P : gmap string jsval → Prop) :
  P ∅ →
  (∀ g s, P (st_decoded s) →
          P (st_decoded (exec (g_run Math_log bytes g) s))) →
  ∀ gl port, P (fst (Decoder Math_log bytes gl port)).
Proof.
  intros Hempty Hstep gl port. cbn [Decoder fst].
  destruct (run_cases gl port) as [(-> & _)|(_ & f & _ & _ & ->)]; [done|].
  by apply run_groups_invariant.
Qed.

(** The properties present are those of the groups that ran. *)
Lemma decoded_groups gl port :
  ∃ gs, (∀ k, is_Some (fst (Decoder Math_log bytes gl port) !! k) ↔
              ∃ g, g ∈ gs ∧ k ∈ g_keys g)
        ∧ (port = 1 → ∀ f, index bytes 0 = Some f → f ∈ recognized →
           gs = selected (index bytes 1) (layout f)).
Proof.
  cbn [Decoder fst].
  destruct (run_cases gl port) as [(-> & _ & Hno)|(-> & f & H0 & Hf & ->)].
  - exists []. split.
    + intros k. rewrite lookup_empty. split; [by intros [? ?]|].
      intros (g & Hg & _). by apply elem_of_nil in Hg.
    + intros -> f H0 Hf. destruct Hno as [?|Hno]; [done|]. by destruct (Hno f).
  - exists (selected (index bytes 1) (layout f)). split.
    + intros k. rewrite <- elem_of_dom, run_groups_dom. cbn [after_flags entered st_decoded].
      rewrite dom_empty_L, (right_id_L ∅ (∪)), elem_of_list_to_set.
      unfold keys_of. rewrite list_elem_of_bind.
      split; intros (g & ? & ?); exists g; auto.
    + intros _ f' H0' _. congruence.
Qed.

Lemma elem_of_selected g flags L :
  g ∈ selected flags L ↔ ∃ bit, (bit, g) ∈ L ∧ flag flags bit = true.
Proof.
  unfold selected. rewrite list_elem_of_fmap. split.
  - intros ([b g'] & -> & H%list_elem_of_filter). cbn in *. exists b. tauto.
  - intros (b & Hin & Hb). exists (b, g). split; [done|].
    by apply list_elem_of_filter.
Qed.

End Calls.

(** Which groups write a given property. *)
Ltac key_groups :=
  let g := fresh "g" in
  intros g; destruct g; cbn [g_keys]; rewrite ?elem_of_cons, ?elem_of_nil;
  intuition congruence.

Lemma error_key g : "error" ∈ g_keys g ↔ g = Env.
Proof. revert g. key_groups. Qed.

Lemma same_groups_same_presence Math_log bytes gl port k1 k2 :
  (∀ g, k1 ∈ g_keys g ↔ k2 ∈ g_keys g) →
  is_Some (fst (Decoder Math_log bytes gl port) !! k1) ↔
  is_Some (fst (Decoder Math_log bytes gl port) !! k2).
Proof.
  intros Hk. destruct (decoded_groups Math_log bytes gl port) as (gs & Hgs & _).
  rewrite !Hgs. split; intros (g & Hg & Hin); exists g; split; auto;
    by apply Hk.
Qed.

(** C6.  Whatever the message, [Decoder] returns an empty object when the
    port is not 1, and when the port is 1 but the first byte is none of
    0x11, 0x14, 0x15, 0x17 (or the message is empty).  The function is
    total: there is no error result. *)
Theorem unrecognized_is_empty Math_log bytes g port :
  port ≠ 1 ∨ (∀ f, index bytes 0 = Some f → f ∉ recognized) →
  fst (Decoder Math_log bytes g port) = ∅.
Proof.
  intros [Hp|Hf]; cbn [Decoder fst].
  - by rewrite run_other_port.
  - destruct (decide (port = 1)) as [->|Hp].
    + by rewrite run_unrecognized.
    + by rewrite run_other_port.
Qed.

(** The bit that guards the temperature, pressure, RH group. *)
Lemma env_bit f bit :
  f ∈ recognized →
  (bit, Env) ∈ layout f ↔ bit = if decide (f = x11) then 0x4 else 0x8.
Proof.
  intros Hf. recognized_cases Hf; cbn [layout];
    rewrite !elem_of_cons, elem_of_nil; case_decide; try done;
    (split; [|intros ->; auto 10]);
    intros Hin; repeat destruct Hin as [Hin|Hin]; try done; congruence.
Qed.

(** C8.  In a recognized format, [error] is present exactly when the bit of
    the temperature, pressure, RH group (0x04 in format 0x11, 0x08 in the
    others) is set in the bitmap, and its value is then the string
    "none". *)
Theorem error_status_none Math_log bytes g f :
  index bytes 0 = Some f → f ∈ recognized →
  let dec := fst (Decoder Math_log bytes g 1) in
  (is_Some (dec !! "error") ↔
   flag (index bytes 1) (if decide (f = x11) then 0x4 else 0x8) = true)
  ∧ (∀ v, dec !! "error" = Some v → v = JStr "none").
Proof.
  intros H0 Hf dec. subst dec. split.
  - destruct (decoded_groups Math_log bytes g 1) as (gs & Hgs & Hsel).
    rewrite Hgs, (Hsel eq_refl f H0 Hf). split.
    + intros (g' & Hg' & ->%error_key).
      apply elem_of_selected in Hg' as (bit & Hin & Hbit).
      apply (env_bit f bit Hf) in Hin. by subst bit.
    + intros Hbit. exists Env. split; [|by apply error_key].
      apply elem_of_selected. eexists. split; [|exact Hbit].
      by apply env_bit.
  - apply (decoded_invariant Math_log bytes
             (λ d, ∀ v, d !! "error" = Some v → v = JStr "none")).
    + intros v. by rewrite lookup_empty.
    + intros g' s Hs v.
      destruct (decide (g' = Env)) as [->|Hne].
      * destruct s as [c i tr d]. run_group.
        rewrite !lookup_insert_ne, lookup_insert_eq by done. congruence.
      * rewrite fp_frame; [apply Hs|]. by rewrite error_key.
Qed.

(** C9.  The object returned does not depend on the value the global [cmd]
    held before the call: [cmd] is assigned before it is read.  After a call
    on port 1 [cmd] holds the first byte of that call's message; on any
    other port it is left as it was.  So a call is determined by its
    arguments alone. *)
Theorem decode_ignores_global Math_log bytes g1 g2 port :
  fst (Decoder Math_log bytes g1 port) = fst (Decoder Math_log bytes g2 port)
  ∧ snd (Decoder Math_log bytes g1 1) = of_element (index bytes 0)
  ∧ (port ≠ 1 → snd (Decoder Math_log bytes g1 port) = g1).
Proof.
  cbn [Decoder fst snd]. split; [|split].
  - destruct (run_cases Math_log bytes g1 port)
      as [(E1 & _ & Hno1)|(Hp1 & f1 & H01 & Hf1 & E1)];
    destruct (run_cases Math_log bytes g2 port)
      as [(E2 & _ & Hno2)|(Hp2 & f2 & H02 & Hf2 & E2)].
    + by rewrite E1, E2.
    + destruct Hno1 as [?|Hno1]; [done | by destruct (Hno1 f2)].
    + destruct Hno2 as [?|Hno2]; [done | by destruct (Hno2 f1)].
    + assert (f2 = f1) as -> by congruence. by rewrite E1, E2.
  - destruct (run_cases Math_log bytes g1 1)
      as [(_ & _ & [?|Hno])|(_ & f & H0 & Hf & ->)].
    + done.
    + by rewrite run_unrecognized.
    + by rewrite run_groups_cmd.
  - intros Hp. by rewrite run_other_port.
Qed.

Lemma env_keys k g :
  k ∈ ["tempC"; "error"; "p"; "rh"; "tDewC"] → k ∈ g_keys g ↔ g = Env.
Proof.
  rewrite !elem_of_cons, elem_of_nil.
  intros [->|[->|[->|[->|[->|[]]]]]]; revert g; key_groups.
Qed.

Lemma soil_keys k g :
  k ∈ ["tSoil"; "rhSoil"; "tSoilDew"] →
  k ∈ g_keys g ↔ g = Soil ∨ g = Soil_0x11.
Proof.
  rewrite !elem_of_cons, elem_of_nil.
  intros [->|[->|[->|[]]]]; revert g; key_groups.
Qed.

(** C10.  The properties of a group are present together or absent
    together: [tempC], [p], [rh], [error] and [tDewC]; [tSoil], [rhSoil]
    and [tSoilDew]; [powerUsedCount] and [powerSourcedCount].  In a
    recognized format a property is present exactly when the bit of a group
    that writes it is set. *)
Theorem groups_are_atomic Math_log bytes g port :
  let dec := fst (Decoder Math_log bytes g port) in
  let has k := is_Some (dec !! k) in
  (has "p" ↔ has "tempC") ∧ (has "rh" ↔ has "tempC")
  ∧ (has "error" ↔ has "tempC") ∧ (has "tDewC" ↔ has "tempC")
  ∧ (has "rhSoil" ↔ has "tSoil") ∧ (has "tSoilDew" ↔ has "tSoil")
  ∧ (has "powerSourcedCount" ↔ has "powerUsedCount")
  ∧ (∀ f, port = 1 → index bytes 0 = Some f → f ∈ recognized →
     ∀ k, has k ↔ ∃ bit grp, (bit, grp) ∈ layout f
                             ∧ flag (index bytes 1) bit = true
                             ∧ k ∈ g_keys grp).
Proof.
  intros dec has. subst dec has. cbv beta.
  do 7 (split; [apply same_groups_same_presence; key_groups|]).
  intros f Hp H0 Hf k.
  destruct (decoded_groups Math_log bytes g port) as (gs & Hgs & Hsel).
  rewrite Hgs, (Hsel Hp f H0 Hf). split.
  - intros (grp & Hin & Hk).
    apply elem_of_selected in Hin as (bit & ? & ?). by exists bit, grp.
  - intros (bit & grp & ? & ? & ?).
    exists grp. split; [|done]. apply elem_of_selected. by exists bit.
Qed.

Ltac lookup_inserts :=
  repeat first [rewrite lookup_insert_eq | rewrite lookup_insert_ne by done].

Lemma env_dew_consistent Math_log bytes gl port :
  dew_consistent Math_log "tempC" "rh" "tDewC"
    (fst (Decoder Math_log bytes gl port)).
Proof.
  apply decoded_invariant; [intros v; by rewrite lookup_empty|].
  intros g s Hs v. destruct (decide (g = Env)) as [->|Hne].
  - destruct s as [c i tr d]. run_group. lookup_inserts. cbn [default].
    by intros [= <-].
  - rewrite !fp_frame; [apply Hs|..]; rewrite env_keys; try done;
      rewrite !elem_of_cons; auto 10.
Qed.

Lemma soil_dew_consistent Math_log bytes gl port :
  dew_consistent Math_log "tSoil" "rhSoil" "tSoilDew"
    (fst (Decoder Math_log bytes gl port)).
Proof.
  apply decoded_invariant; [intros v; by rewrite lookup_empty|].
  intros g s Hs v.
  destruct (decide (g = Soil)) as [->|Hne1];
    [|destruct (decide (g = Soil_0x11)) as [->|Hne2]].
  - destruct s as [c i tr d]. run_group. lookup_inserts. cbn [default].
    by intros [= <-].
  - destruct s as [c i tr d]. run_group. lookup_inserts. cbn [default].
    by intros [= <-].
  - rewrite !fp_frame; [apply Hs|..]; rewrite soil_keys; try tauto;
      rewrite !elem_of_cons; auto 10.
Qed.

(** C5.  [dewpoint(t, rh)] is the Magnus formula with c1 = 243.04 and
    c2 = 17.625 at the ratio [h = rh / 100] clamped into [0.01, 1.0]: [h]
    is 0.01 when the ratio is at most 0.01, 1.0 when it exceeds 1.0, and the
    ratio itself in between.  [dewpoint(21.61328125, 76.171875)] equals
    17.236466758309017 to six significant digits and more: in binary64
    arithmetic it is within 2^-40 of it (hence within 0.00005) for every
    [Math.log] that returns, at 0.76171875, a value within 1024 units in the
    last place of the correctly rounded logarithm [ln_0_76171875]; over the
    reals the formula is within 10^-13 of it.  In every format the dew point
    of the main group and that of the soil group are this one function of
    the stored temperature and humidity. *)
Theorem dewpoint_magnus_shared Math_log :
  (∀ t rh, ∃ h,
     dewpoint Math_log t rh = magnus Math_log 243.04 17.625 t h
     ∧ ((rh / 100 <=? 0.01)%float = true → h = 0.01%float)
     ∧ ((1.0 <? rh / 100)%float = true → h = 1.0%float)
     ∧ ((0.01 <? rh / 100)%float = true → (rh / 100 <=? 1.0)%float = true →
        h = (rh / 100)%float)
     ∧ (PrimFloat.is_nan (rh / 100) = false →
        (0.01 <=? h)%float = true ∧ (h <=? 1.0)%float = true))
  ∧ (within_ulps 1024 ln_0_76171875 (Math_log 0.76171875%float) →
     close 0x1p-40 (dewpoint Math_log 21.61328125 76.171875)
           17.236466758309017 = true
     ∧ close 0.00005 (dewpoint Math_log 21.61328125 76.171875)
             17.236466758309017 = true)
  ∧ (Rabs (ln (SF2R (Prim2SF 0.76171875)) - SF2R (Prim2SF ln_0_76171875))
     < / 2 ^ 55)%R
  ∧ (Rabs (dewpoint_real 21.61328125 76.171875 - 17.236466758309017)
     < 1 / 10 ^ 13)%R
  ∧ (∀ bytes g port,
       dew_consistent Math_log "tempC" "rh" "tDewC"
         (fst (Decoder Math_log bytes g port))
       ∧ dew_consistent Math_log "tSoil" "rhSoil" "tSoilDew"
           (fst (Decoder Math_log bytes g port))).
Proof.
  split; [|split; [|split; [|split]]].
  - apply dewpoint_clamped.
  - apply dewpoint_test_vector.
  - apply ln_0_76171875_rounded.
  - apply dewpoint_real_test_vector.
  - intros bytes g port. split.
    + apply env_dew_consistent.
    + apply soil_dew_consistent.
Qed.

(** ** The index into the message *)

Lemma widths_small gs : Forall (λ w, w = 1 ∨ w = 2) (widths_of gs).
Proof.
  induction gs as [|g gs IH]; [constructor|].
  change (widths_of (g :: gs)) with (g_widths g ++ widths_of gs).
  apply Forall_app. split; [|done].
  destruct g; cbn [g_widths];
    repeat first [apply Forall_nil_2 | apply Forall_cons_2; [lia|]].
Qed.

Lemma steps_adjacent ws i n c c' :
  (i :: steps i ws) !! n = Some c → (i :: steps i ws) !! S n = Some c' →
  ∃ w, ws !! n = Some w ∧ c' = c + w.
Proof.
  revert i n. induction ws as [|w ws IH]; intros i n Hc Hc'.
  - destruct n; cbn in Hc'; discriminate.
  - destruct n as [|n].
    + cbn in Hc, Hc'. exists w. split; [done|]. congruence.
    + cbn [steps] in Hc, Hc'. rewrite lookup_cons_Some in Hc, Hc'.
      destruct Hc as [[? _]|[_ Hc]]; [lia|].
      destruct Hc' as [[? _]|[_ Hc']]; [lia|].
      replace (S n - 1)%nat with n in Hc by lia.
      replace (S (S n) - 1)%nat with (S n) in Hc' by lia.
      apply (IH (i + w) n Hc Hc').
Qed.

Lemma steps_lower ws i :
  Forall (λ w, 0 ≤ w) ws → Forall (λ c, i ≤ c) (steps i ws).
Proof.
  intros Hws. revert i. induction Hws as [|w ws Hw _ IH]; intros i; cbn.
  - constructor.
  - constructor; [lia|]. eapply Forall_impl; [apply IH|]. cbn. lia.
Qed.

Lemma steps_upper ws i B :
  Forall (λ w, 0 ≤ w) ws →
  Forall (λ c, c ≤ B) (i :: steps i ws) ↔ i + total ws ≤ B.
Proof.
  intros Hws. revert i. induction Hws as [|w ws Hw Hws IH]; intros i.
  - cbn. rewrite Forall_singleton. lia.
  - cbn [steps]. rewrite Forall_cons, IH.
    change (total (w :: ws)) with (w + total ws).
    assert (0 ≤ total ws).
    { clear IH. induction Hws as [|w' ws' ? ? IH']; [done|].
      change (total (w' :: ws')) with (w' + total ws'). lia. }
    lia.
Qed.

Lemma fields_nonneg f flags : Forall (λ w, 0 ≤ w) (fields f flags).
Proof.
  constructor; [lia|]. eapply Forall_impl; [apply widths_small|].
  cbn. lia.
Qed.

Lemma trace_recognized Math_log bytes g f :
  index bytes 0 = Some f → f ∈ recognized →
  st_trace (run Math_log bytes g 1) = 1 :: steps 1 (fields f (index bytes 1))
  ∧ st_i (run Math_log bytes g 1) = 1 + total (fields f (index bytes 1)).
Proof.
  intros H0 Hf. rewrite (run_recognized Math_log bytes g f H0 Hf).
  rewrite run_groups_trace, run_groups_i. split; [reflexivity|].
  unfold fields. cbn [after_flags st_i].
  change (total (1 :: ?ws)) with (1 + total ws). lia.
Qed.

(** C7.  The index [i] is never negative and never decreases: it starts at
    1, and each field consumed advances it by exactly the width of that
    field, one or two bytes, so that it ends just after the last field of
    the selected groups.  No read is bounds-checked: [i] stays within the
    length of the message exactly when the message is long enough to hold
    the format byte, the bitmap and the fields of the selected groups. *)
Theorem cursor_advances_by_field_widths Math_log bytes g port :
  let tr := st_trace (run Math_log bytes g port) in
  Forall (λ c, 0 ≤ c) tr
  ∧ (∀ n c c', tr !! n = Some c → tr !! S n = Some c' →
       c' = c + 1 ∨ c' = c + 2)
  ∧ (port ≠ 1 ∨ (∀ f, index bytes 0 = Some f → f ∉ recognized) → tr = [])
  ∧ (∀ f, port = 1 → index bytes 0 = Some f → f ∈ recognized →
       tr = 1 :: steps 1 (fields f (index bytes 1))
       ∧ st_i (run Math_log bytes g port) = 1 + total (fields f (index bytes 1))
       ∧ (Forall (λ c, c ≤ Z.of_nat (length bytes)) tr ↔
          1 + total (fields f (index bytes 1)) ≤ Z.of_nat (length bytes))).
Proof.
  intros tr. subst tr.
  destruct (run_cases Math_log bytes g port)
    as [(_ & Htr & Hno)|(-> & f & H0 & Hf & _)].
  - rewrite Htr. split; [constructor|].
    split; [intros n c c' Hc; by rewrite lookup_nil in Hc|].
    split; [done|]. intros f Hp H0 Hf. exfalso.
    destruct Hno as [?|Hno]; [done | by destruct (Hno f)].
  - destruct (trace_recognized Math_log bytes g f H0 Hf) as [Htr Hi].
    rewrite Htr, Hi. pose proof (fields_nonneg f (index bytes 1)) as Hnn.
    split; [|split; [|split]].
    + constructor; [lia|]. eapply Forall_impl; [by apply steps_lower|].
      cbn. lia.
    + intros n c c' Hc Hc'.
      destruct (steps_adjacent _ _ _ _ _ Hc Hc') as (w & Hw & ->).
      assert (Hsmall : Forall (λ w, w = 1 ∨ w = 2) (fields f (index bytes 1)))
        by (constructor; [auto | apply widths_small]).
      by apply (proj1 (Forall_lookup _ _) Hsmall n w) in Hw as [->| ->]; auto.
    + intros [?|Hno]; [done|]. by destruct (Hno f).
    + intros f' _ H0' _. assert (f' = f) as -> by congruence.
      split; [done|]. split; [done|]. by apply steps_upper.
Qed.

(** C7, as stated, fails: the message [14 01] selects [vBat] but holds none
    of its bytes, and [i] runs to 4, past the two bytes of the message. *)
Lemma cursor_exceeds_truncated_message :
  st_trace (run RefLog.log [x14; x01] JUndef 1) = [1; 2; 4]
  ∧ ¬ Forall (λ c, 0 ≤ c ≤ Z.of_nat (length [x14; x01]))
        (st_trace (run RefLog.log [x14; x01] JUndef 1)).
Proof.
  assert (Htr : st_trace (run RefLog.log [x14; x01] JUndef 1) = [1; 2; 4])
    by (vm_compute; reflexivity).
  split; [done|]. rewrite Htr. intros H.
  rewrite !Forall_cons in H. cbn in H. lia.
Qed.

(** ** Temperatures, soil and air quality *)

Section Values.

Variable Math_log : float → float.
Variable bytes : list byte.

Lemma value_tempC s hi lo :
  index bytes (st_i s) = Some hi → index bytes (st_i s + 1) = Some lo →
  st_decoded (exec (g_run Math_log bytes Env) s) !! "tempC" =
  Some (JNum (float_of_Z (int16 (be16 hi lo)) / 256)).
Proof.
  intros Hhi Hlo. destruct s as [c i tr d]. cbn [st_i] in *. run_group.
  lookup_inserts. rewrite Z.add_0_r, Hhi, Hlo, raw16.
  by rewrite sign_extend_int16 by apply be16_range.
Qed.

Lemma value_tWater_0x11 s hi lo :
  index bytes (st_i s) = Some hi → index bytes (st_i s + 1) = Some lo →
  st_decoded (exec (g_run Math_log bytes Water_0x11) s) !! "tWater" =
  Some (JNum (float_of_Z (be16 hi lo) / 256)).
Proof.
  intros Hhi Hlo. destruct s as [c i tr d]. cbn [st_i] in *. run_group.
  lookup_inserts. by rewrite Z.add_0_r, Hhi, Hlo, raw16.
Qed.

Lemma value_tSoil_0x11 s hi lo :
  index bytes (st_i s) = Some hi → index bytes (st_i s + 1) = Some lo →
  st_decoded (exec (g_run Math_log bytes Soil_0x11) s) !! "tSoil" =
  Some (JNum (float_of_Z (be16 hi lo) / 256)).
Proof.
  intros Hhi Hlo. destruct s as [c i tr d]. cbn [st_i] in *. run_group.
  lookup_inserts. by rewrite Z.add_0_r, Hhi, Hlo, raw16.
Qed.

Lemma value_aqi s hi lo :
  index bytes (st_i s) = Some hi → index bytes (st_i s + 1) = Some lo →
  st_decoded (exec (g_run Math_log bytes Aqi) s) !! "aqi" =
  Some (JNum (minifloat (be16 hi lo) * 512)).
Proof.
  intros Hhi Hlo. destruct s as [c i tr d]. cbn [st_i] in *. run_group.
  lookup_inserts. rewrite Z.add_0_r, Hhi, Hlo, raw16.
  pose proof (be16_range hi lo).
  by rewrite band_0xFFF, shr12 by done.
Qed.

End Values.

Ltac not_later_key :=
  cbn; rewrite ?not_elem_of_cons; repeat split; try discriminate;
  apply not_elem_of_nil.

(** C2, as the code has it.  In format 0x11 the temperature of the main
    group (bit 0x04) is sign-extended like in the other formats: [tempC] is
    the big-endian 16-bit value read as a signed number, over 256.  The
    one-wire temperature (bit 0x10) is not: [tWater] is the unsigned
    big-endian 16-bit value over 256. *)
Theorem format_0x11_temperatures Math_log bytes g flags :
  index bytes 0 = Some x11 → index bytes 1 = Some flags →
  let dec := fst (Decoder Math_log bytes g 1) in
  (Z.testbit (byte_val flags) 2 = true →
   ∀ hi lo, index bytes (offset x11 (Some flags) 0x4) = Some hi →
     index bytes (offset x11 (Some flags) 0x4 + 1) = Some lo →
     dec !! "tempC" = Some (JNum (float_of_Z (int16 (be16 hi lo)) / 256)))
  ∧ (Z.testbit (byte_val flags) 4 = true →
     ∀ hi lo, index bytes (offset x11 (Some flags) 0x10) = Some hi →
       index bytes (offset x11 (Some flags) 0x10 + 1) = Some lo →
       dec !! "tWater" = Some (JNum (float_of_Z (be16 hi lo) / 256))).
Proof.
  intros H0 H1 dec. subst dec. cbn [Decoder fst].
  pose proof recognized_0x11 as Hf.
  split.
  - intros Hbit hi lo Hhi Hlo.
    destruct (run_located Math_log bytes g x11 0x4 Env
                [(0x8, Lux); (0x10, Water_0x11); (0x20, Soil_0x11)]
                "tempC" H0 Hf) as (s & Hi & ->); [done| |not_later_key|].
    + rewrite H1. by rewrite (flag_testbit flags 0x4 2).
    + apply value_tempC; rewrite Hi, H1; done.
  - intros Hbit hi lo Hhi Hlo.
    destruct (run_located Math_log bytes g x11 0x10 Water_0x11
                [(0x20, Soil_0x11)]
                "tWater" H0 Hf) as (s & Hi & ->); [done| |not_later_key|].
    + rewrite H1. by rewrite (flag_testbit flags 0x10 4).
    + apply value_tWater_0x11; rewrite Hi, H1; done.
Qed.

(** C4.  In format 0x17, when bit 0x20 of the bitmap is set, [aqi] is the
    mini-float value of the two bytes of its field (the low 12 bits over
    4096, times two to the power of the top 4 bits minus 15) times 512.  The
    message [17 3D 44 60 0D 15 9D 5F CD C3 00 00 F9 07] on port 1 gives
    aqi = 288.875 and boot = 13. *)
Theorem aqi_minifloat_scaled :
  (∀ Math_log bytes g flags hi lo,
     index bytes 0 = Some x17 → index bytes 1 = Some flags →
     Z.testbit (byte_val flags) 5 = true →
     index bytes (offset x17 (Some flags) 0x20) = Some hi →
     index bytes (offset x17 (Some flags) 0x20 + 1) = Some lo →
     fst (Decoder Math_log bytes g 1) !! "aqi"
     = Some (JNum (minifloat (be16 hi lo) * 512)))
  ∧ (∀ Math_log g,
       let dec := fst (Decoder Math_log
                         [x17; x3d; x44; x60; x0d; x15; x9d; x5f; xcd; xc3;
                          x00; x00; xf9; x07] g 1) in
       dec !! "aqi" = Some (JNum 288.875) ∧ dec !! "boot" = Some (JNum 13)).
Proof.
  split.
  - intros Math_log bytes g flags hi lo H0 H1 Hbit Hhi Hlo. cbn [Decoder fst].
    destruct (run_located Math_log bytes g x17 0x20 Aqi [] "aqi" H0
                recognized_0x17) as (s & Hi & ->); [done| |not_later_key|].
    + rewrite H1. by rewrite (flag_testbit flags 0x20 5).
    + apply value_aqi; rewrite Hi, H1; done.
  - intros Math_log g. split; vm_compute; reflexivity.
Qed.

(** C3.  The message [11 20 F9 1B EC] carries the soil temperature raw
    value 0xF91B, which is -6.89453125 as a signed number over 256; format
    0x15 decodes the same field to that value, format 0x11 to
    249.10546875. *)
Theorem soil_temperature_0x11_unsigned Math_log g :
  fst (Decoder Math_log [x11; x20; xf9; x1b; xec] g 1) !! "tSoil"
  = Some (JNum 249.10546875)
  ∧ (float_of_Z (int16 (be16 xf9 x1b)) / 256 = -6.89453125)%float
  ∧ fst (Decoder Math_log [x15; x40; xf9; x1b; xec] g 1) !! "tSoil"
    = Some (JNum (-6.89453125)).
Proof.
  split; [|split].
  - vm_compute. reflexivity.
  - vm_compute. reflexivity.
  - vm_compute. reflexivity.
Qed.

(** ** The test vectors of the source, decoded *)

Lemma unrecognized_0x99 f : Some x99 = Some f → f ∉ recognized.
Proof.
  intros [= <-]. unfold recognized. rewrite !not_elem_of_cons.
  repeat split; try discriminate. apply not_elem_of_nil.
Qed.

(** [14 03 18 00 F8 00]: vBat = 1.5, vBus = -0.5 *)
Lemma voltage_signed_scaled_witness :
  let dec := fst (Decoder RefLog.log [x14; x03; x18; x00; xf8; x00] JUndef 1) in
  dec !! "vBat" = Some (JNum 1.5) ∧ dec !! "vBus" = Some (JNum (-0.5)).
Proof.
  destruct (voltage_signed_scaled RefLog.log [x14; x03; x18; x00; xf8; x00]
              JUndef x14 x03 eq_refl recognized_0x14 eq_refl)
    as (Hbat & Hbus & _).
  split.
  - exact (Hbat eq_refl x18 x00 eq_refl eq_refl).
  - exact (Hbus eq_refl xf8 x00 eq_refl eq_refl).
Defined.

(** [11 14 17 80 59 35 80 F9 1B]: tempC = 23.5, tWater = 249.10546875 *)
Lemma format_0x11_temperatures_witness :
  let dec := fst (Decoder RefLog.log
                    [x11; x14; x17; x80; x59; x35; x80; xf9; x1b] JUndef 1) in
  dec !! "tempC" = Some (JNum 23.5)
  ∧ dec !! "tWater" = Some (JNum 249.10546875).
Proof.
  destruct (format_0x11_temperatures RefLog.log
              [x11; x14; x17; x80; x59; x35; x80; xf9; x1b] JUndef x14
              eq_refl eq_refl) as (Htemp & Hwater).
  split.
  - exact (Htemp eq_refl x17 x80 eq_refl eq_refl).
  - exact (Hwater eq_refl xf9 x1b eq_refl eq_refl).
Defined.

(** C2, as stated, fails: in [11 04 F5 9B 5E 5F C1] the raw temperature
    0xF59B has bit 15 set; read as unsigned it would give 245.60546875, the
    code gives -10.39453125. *)
Lemma format_0x11_tempC_is_signed :
  let bytes := [x11; x04; xf5; x9b; x5e; x5f; xc1] in
  let dec := fst (Decoder RefLog.log bytes JUndef 1) in
  index bytes 0 = Some x11 ∧ index bytes 1 = Some x04
  ∧ Z.testbit (byte_val x04) 2 = true
  ∧ index bytes 2 = Some xf5 ∧ index bytes 3 = Some x9b
  ∧ (float_of_Z (be16 xf5 x9b) / 256 = 245.60546875)%float
  ∧ dec !! "tempC" = Some (JNum (-10.39453125))
  ∧ dec !! "tempC" ≠ Some (JNum (float_of_Z (be16 xf5 x9b) / 256)).
Proof.
  cbv zeta. repeat split; try (vm_compute; reflexivity).
  intros H. apply (f_equal (λ o, match o with
                                 | Some (JNum x) => (x <? 0)%float
                                 | _ => false
                                 end)) in H.
  vm_compute in H. discriminate H.
Qed.

(** [17 3D 44 60 0D 15 9D 5F CD C3 00 00 F9 07]: aqi = 288.875, boot = 13 *)
Lemma aqi_minifloat_scaled_witness :
  fst (Decoder RefLog.log
         [x17; x3d; x44; x60; x0d; x15; x9d; x5f; xcd; xc3; x00; x00; xf9; x07]
         JUndef 1) !! "aqi" = Some (JNum 288.875).
Proof.
  exact (proj1 aqi_minifloat_scaled RefLog.log
           [x17; x3d; x44; x60; x0d; x15; x9d; x5f; xcd; xc3; x00; x00; xf9;
            x07] JUndef x3d xf9 x07 eq_refl eq_refl eq_refl eq_refl eq_refl).
Defined.

(** The reference logarithm returns the rounded logarithm at 0.76171875. *)
Lemma dewpoint_magnus_shared_witness :
  close 0x1p-40 (dewpoint RefLog.log 21.61328125 76.171875)
        17.236466758309017 = true
  ∧ close 0.00005 (dewpoint RefLog.log 21.61328125 76.171875)
          17.236466758309017 = true.
Proof.
  destruct (dewpoint_magnus_shared RefLog.log) as (_ & Hvec & _ & _ & _).
  apply Hvec. unfold within_ulps.
  replace (RefLog.log 0.76171875) with ln_0_76171875
    by (vm_compute; reflexivity).
  apply list_elem_of_here.
Defined.

(** [99 01 18 00] on port 1 and [14 01 18 00] on port 2 *)
Lemma unrecognized_is_empty_witness :
  fst (Decoder RefLog.log [x99; x01; x18; x00] JUndef 1) = ∅
  ∧ fst (Decoder RefLog.log [x14; x01; x18; x00] JUndef 2) = ∅.
Proof.
  split.
  - apply (unrecognized_is_empty RefLog.log [x99; x01; x18; x00] JUndef 1).
    right. exact unrecognized_0x99.
  - apply (unrecognized_is_empty RefLog.log [x14; x01; x18; x00] JUndef 2).
    left. discriminate.
Defined.

(** [14 05 F8 00 42]: the index takes the values 1, 2, 4, 5 *)
Lemma cursor_advances_by_field_widths_witness :
  st_trace (run RefLog.log [x14; x05; xf8; x00; x42] JUndef 1) = [1; 2; 4; 5]
  ∧ Forall (λ c, c ≤ 5)
      (st_trace (run RefLog.log [x14; x05; xf8; x00; x42] JUndef 1)).
Proof.
  destruct (cursor_advances_by_field_widths RefLog.log
              [x14; x05; xf8; x00; x42] JUndef 1) as (_ & _ & _ & H).
  destruct (H x14 eq_refl eq_refl recognized_0x14) as (Htr & _ & Hiff).
  split.
  - exact Htr.
  - apply Hiff. vm_compute. discriminate.
Defined.

(** [17 0D F8 00 42 17 80 59 35 80]: error is present and is "none" *)
Lemma error_status_none_witness :
  let dec := fst (Decoder RefLog.log
                    [x17; x0d; xf8; x00; x42; x17; x80; x59; x35; x80]
                    JUndef 1) in
  is_Some (dec !! "error") ∧ (∀ v, dec !! "error" = Some v → v = JStr "none").
Proof.
  destruct (error_status_none RefLog.log
              [x17; x0d; xf8; x00; x42; x17; x80; x59; x35; x80] JUndef x17
              eq_refl recognized_0x17) as (Hiff & Hval).
  split; [|exact Hval]. apply Hiff. reflexivity.
Defined.

(** On port 2 the global [cmd] keeps its value. *)
Lemma decode_ignores_global_witness :
  fst (Decoder RefLog.log [x14; x01; x18; x00] JUndef 2)
  = fst (Decoder RefLog.log [x14; x01; x18; x00] (JNum 17) 2)
  ∧ snd (Decoder RefLog.log [x14; x01; x18; x00] JUndef 1) = JNum 20
  ∧ snd (Decoder RefLog.log [x14; x01; x18; x00] JUndef 2) = JUndef.
Proof.
  destruct (decode_ignores_global RefLog.log [x14; x01; x18; x00]
              JUndef (JNum 17) 2) as (Hfst & Hcmd & Hkeep).
  split; [exact Hfst|]. split; [exact Hcmd|]. apply Hkeep. discriminate.
Defined.

(** [15 40 F9 1B EC]: the soil group is present *)
Lemma groups_are_atomic_witness :
  let dec := fst (Decoder RefLog.log [x15; x40; xf9; x1b; xec] JUndef 1) in
  is_Some (dec !! "tSoil") ∧ is_Some (dec !! "rhSoil")
  ∧ is_Some (dec !! "tSoilDew").
Proof.
  destruct (groups_are_atomic RefLog.log [x15; x40; xf9; x1b; xec] JUndef 1)
    as (_ & _ & _ & _ & Hrh & Hdew & _ & Hbit).
  assert (Hsoil : is_Some (fst (Decoder RefLog.log [x15; x40; xf9; x1b; xec]
                                  JUndef 1) !! "tSoil")).
  { apply (Hbit x15 eq_refl eq_refl recognized_0x15 "tSoil").
    exists 0x40, Soil. split; [|split; [reflexivity|]].
    - cbn [layout]. rewrite !elem_of_cons. auto 10.
    - cbn [g_keys]. rewrite !elem_of_cons. auto. }
  split; [exact Hsoil|]. split; [by apply Hrh | by apply Hdew].
Defined.

(** Test vectors listed in the comments of the source, with [Math.log] read
    as [RefLog.log]: the objects are the ones the comments give, digit for
    digit. *)

Example vector_14_01_18_00 :
  fst (Decoder RefLog.log [x14; x01; x18; x00] JUndef 1)
  = object [("vBat", 1.5%float)].
Proof. vm_compute. reflexivity. Qed.

Example vector_14_05_F8_00_42 :
  fst (Decoder RefLog.log [x14; x05; xf8; x00; x42] JUndef 1)
  = object [("vBat", (-0.5)%float); ("boot", 66%float)].
Proof. vm_compute. reflexivity. Qed.

Example vector_15_7D_long_1 :
  fst (Decoder RefLog.log
         [x15; x7d; x44; x60; x0d; x15; x9d; x5f; xcd; xc3; x00; x00; x1c;
          x11; x14; x46; xe4] JUndef 1)
  = <["error" := JStr "none"]>
      (object [("boot", 13%float); ("lux", 0%float); ("p", 981%float);
               ("rh", 76.171875%float); ("rhSoil", 89.0625%float);
               ("tDewC", 17.236466758309017%float);
               ("tSoil", 20.2734375%float);
               ("tSoilDew", 18.411840342527178%float);
               ("tWater", 28.06640625%float); ("tempC", 21.61328125%float);
               ("vBat", 4.2734375%float)]).
Proof. vm_compute. reflexivity. Qed.

Example vector_15_7D_long_2 :
  fst (Decoder RefLog.log
         [x15; x7d; x42; xd4; x21; xf5; x9b; x5e; x5f; xc1; x00; x00; x01;
          xc1; xf9; x1b; xec] JUndef 1)
  = <["error" := JStr "none"]>
      (object [("boot", 33%float); ("lux", 0%float); ("p", 966.36%float);
               ("rh", 75.390625%float); ("rhSoil", 92.1875%float);
               ("tDewC", (-13.909882718758952)%float);
               ("tSoil", (-6.89453125)%float);
               ("tSoilDew", (-7.948780789914008)%float);
               ("tWater", 1.75390625%float); ("tempC", (-10.39453125)%float);
               ("vBat", 4.1767578125%float)]).
Proof. vm_compute. reflexivity. Qed.

Example vector_11_3D_long_1 :
  fst (Decoder RefLog.log
         [x11; x3d; x44; x60; x15; x9d; x5f; xcd; xc3; x00; x00; x1c; x11;
          x14; x46; xe4] JUndef 1)
  = <["error" := JStr "none"]>
      (object [("lux", 0%float); ("p", 981%float); ("rh", 76.171875%float);
               ("rhSoil", 89.0625%float);
               ("tDewC", 17.236466758309017%float);
               ("tSoil", 20.2734375%float);
               ("tSoilDew", 18.411840342527178%float);
               ("tWater", 28.06640625%float); ("tempC", 21.61328125%float);
               ("vBat", 4.2734375%float)]).
Proof. vm_compute. reflexivity. Qed.

Example vector_17_3D_long_1 :
  fst (Decoder RefLog.log
         [x17; x3d; x44; x60; x0d; x15; x9d; x5f; xcd; xc3; x00; x00; xf9;
          x07] JUndef 1)
  = <["error" := JStr "none"]>
      (object [("aqi", 288.875%float); ("boot", 13%float); ("lux", 0%float);
               ("p", 981%float); ("rh", 76.171875%float);
               ("tDewC", 17.236466758309017%float);
               ("tempC", 21.61328125%float); ("vBat", 4.2734375%float)]).
Proof. vm_compute. reflexivity. Qed.

Example vector_17_3D_long_2 :
  fst (Decoder RefLog.log
         [x17; x3d; x43; x72; x07; x17; xa4; x5f; xcb; xa7; x01; xdb; xe9;
          xaf] JUndef 1)
  = <["error" := JStr "none"]>
      (object [("aqi", 154.9375%float); ("boot", 7%float); ("lux", 475%float);
               ("p", 980.92%float); ("rh", 65.234375%float);
               ("tDewC", 16.732001483771757%float);
               ("tempC", 23.640625%float); ("vBat", 4.21533203125%float)]).
Proof. vm_compute. reflexivity. Qed.

(** * Further properties of the decoder *)

(** ** Exhaustive checks on bytes *)

Lemma all_bytes_complete b : In b all_bytes.
Proof.
  assert (H : existsb (Byte.eqb b) all_bytes = true)
    by (destruct b; vm_compute; reflexivity).
  apply existsb_exists in H as (b' & Hin & Heq).
  apply Byte.byte_dec_bl in Heq. subst b'. exact Hin.
Qed.

Lemma for_all_bytes (P : byte → bool) :
  forallb P all_bytes = true → ∀ b, P b = true.
Proof.
  intros H b.
  pose proof (proj1 (forallb_forall P all_bytes) H) as Hall.
  exact (Hall b (all_bytes_complete b)).
Qed.

Lemma for_all_pairs (P : byte → byte → bool) :
  on_all_pairs P = true → ∀ hi lo, P hi lo = true.
Proof.
  unfold on_all_pairs. intros H hi lo.
  apply (for_all_bytes (P hi)).
  revert hi. apply (for_all_bytes (λ hi, forallb (P hi) all_bytes)). exact H.
Qed.

(** ** Where a group runs *)

Lemma layout_split f bit g :
  f ∈ recognized → (bit, g) ∈ layout f →
  ∃ L2, layout f = before bit (layout f) ++ (bit, g) :: L2
        ∧ ∀ k, k ∈ g_keys g → k ∉ keys_of (snd <$> L2).
Proof.
  intros Hf Hin.
  recognized_cases Hf; cbn [layout] in Hin |- *;
    rewrite !elem_of_cons, elem_of_nil in Hin;
    repeat destruct Hin as [Hin|Hin]; try done;
    injection Hin as -> ->; (eexists; split; [reflexivity|]);
    intros k Hk; cbn [g_keys] in Hk;
    rewrite !elem_of_cons, elem_of_nil in Hk;
    repeat destruct Hk as [Hk|Hk]; try done; subst k; not_later_key.
Qed.

Section Located.

Variable Math_log : float → float.
Variable bytes : list byte.

(** The properties of a selected group are the ones its statements wrote
    when they ran with [i] at the group's offset. *)
Lemma group_located gl f bit g :
  index bytes 0 = Some f → f ∈ recognized → (bit, g) ∈ layout f →
  flag (index bytes 1) bit = true →
  ∃ s, st_i s = offset f (index bytes 1) bit ∧
       ∀ k, k ∈ g_keys g →
         fst (Decoder Math_log bytes gl 1) !! k =
         st_decoded (exec (g_run Math_log bytes g) s) !! k.
Proof.
  intros H0 Hf Hin Hbit.
  destruct (layout_split f bit g Hf Hin) as (L2 & HL & Hkeys).
  cbn [Decoder fst].
  rewrite (run_recognized Math_log bytes gl f H0 Hf).
  unfold offset. remember (before bit (layout f)) as L1 eqn:E1.
  rewrite HL, selected_app, selected_cons_true by done.
  rewrite exec_run_groups_app, exec_run_groups_cons.
  eexists. split; [|intros k Hk; apply run_groups_frame].
  - by rewrite run_groups_i.
  - intros Hin'. by apply (Hkeys k Hk), (keys_of_selected (index bytes 1)).
Qed.

End Located.

(** ** What each group stores, from the bytes of its fields *)

Ltac field_indices i :=
  rewrite ?Z.add_0_r;
  replace (i + 2 + 1) with (i + 3) by lia;
  replace (i + 2 + 2) with (i + 4) by lia.

Section GroupValues.

Variable Math_log : float → float.
Variable bytes : list byte.

Lemma value_env s thi tlo phi plo h :
  index bytes (st_i s) = Some thi → index bytes (st_i s + 1) = Some tlo →
  index bytes (st_i s + 2) = Some phi → index bytes (st_i s + 3) = Some plo →
  index bytes (st_i s + 4) = Some h →
  let d := st_decoded (exec (g_run Math_log bytes Env) s) in
  let t := (float_of_Z (int16 (be16 thi tlo)) / 256)%float in
  let rh := (float_of_Z (byte_val h) / 256 * 100)%float in
  d !! "tempC" = Some (JNum t)
  ∧ d !! "p" = Some (JNum (float_of_Z (be16 phi plo) * 4 / 100))
  ∧ d !! "rh" = Some (JNum rh)
  ∧ d !! "tDewC" = Some (JNum (dewpoint Math_log t rh)).
Proof.
  intros Ht1 Ht2 Hp1 Hp2 Hh. destruct s as [c i tr d]. cbn [st_i] in *.
  cbv zeta. run_group. lookup_inserts. cbn [default numeric].
  field_indices i.
  rewrite Ht1, Ht2, Hp1, Hp2, Hh, !raw16.
  rewrite sign_extend_int16 by apply be16_range. done.
Qed.

Lemma value_lux s hi lo :
  index bytes (st_i s) = Some hi → index bytes (st_i s + 1) = Some lo →
  st_decoded (exec (g_run Math_log bytes Lux) s) !! "lux" =
  Some (JNum (float_of_Z (be16 hi lo))).
Proof.
  intros Hhi Hlo. destruct s as [c i tr d]. cbn [st_i] in *. run_group.
  lookup_inserts. by rewrite Z.add_0_r, Hhi, Hlo, raw16.
Qed.

Lemma value_boot s :
  st_decoded (exec (g_run Math_log bytes Boot) s) !! "boot" =
  Some (of_element (index bytes (st_i s))).
Proof.
  destruct s as [c i tr d]. cbn [st_i] in *. run_group.
  lookup_inserts. by rewrite Z.add_0_r.
Qed.

Lemma value_power s hi1 lo1 hi2 lo2 :
  index bytes (st_i s) = Some hi1 → index bytes (st_i s + 1) = Some lo1 →
  index bytes (st_i s + 2) = Some hi2 → index bytes (st_i s + 3) = Some lo2 →
  let d := st_decoded (exec (g_run Math_log bytes Power) s) in
  d !! "powerUsedCount" = Some (JNum (float_of_Z (be16 hi1 lo1)))
  ∧ d !! "powerSourcedCount" = Some (JNum (float_of_Z (be16 hi2 lo2))).
Proof.
  intros H1 H2 H3 H4. destruct s as [c i tr d]. cbn [st_i] in *.
  cbv zeta. run_group. lookup_inserts. field_indices i.
  by rewrite H1, H2, H3, H4, !raw16.
Qed.

Lemma value_rate s hi1 lo1 hi2 lo2 :
  index bytes (st_i s) = Some hi1 → index bytes (st_i s + 1) = Some lo1 →
  index bytes (st_i s + 2) = Some hi2 → index bytes (st_i s + 3) = Some lo2 →
  let d := st_decoded (exec (g_run Math_log bytes Rate) s) in
  d !! "powerUsedPerHour" =
    Some (JNum (minifloat (be16 hi1 lo1) * 60 * 60 * 4))
  ∧ d !! "powerSourcedPerHour" =
    Some (JNum (minifloat (be16 hi2 lo2) * 60 * 60 * 4)).
Proof.
  intros H1 H2 H3 H4. destruct s as [c i tr d]. cbn [st_i] in *.
  cbv zeta. run_group. lookup_inserts. field_indices i.
  rewrite H1, H2, H3, H4, !raw16.
  pose proof (be16_range hi1 lo1). pose proof (be16_range hi2 lo2).
  by rewrite !band_0xFFF, !shr12 by done.
Qed.

Lemma value_water s hi lo :
  index bytes (st_i s) = Some hi → index bytes (st_i s + 1) = Some lo →
  st_decoded (exec (g_run Math_log bytes Water) s) !! "tWater" =
  Some (JNum (float_of_Z (int16 (be16 hi lo)) / 256)).
Proof.
  intros Hhi Hlo. destruct s as [c i tr d]. cbn [st_i] in *. run_group.
  lookup_inserts. rewrite Z.add_0_r, Hhi, Hlo, raw16.
  by rewrite sign_extend_int16 by apply be16_range.
Qed.

Lemma value_soil s hi lo h :
  index bytes (st_i s) = Some hi → index bytes (st_i s + 1) = Some lo →
  index bytes (st_i s + 2) = Some h →
  let d := st_decoded (exec (g_run Math_log bytes Soil) s) in
  let t := (float_of_Z (int16 (be16 hi lo)) / 256)%float in
  let rh := (float_of_Z (byte_val h) / 256 * 100)%float in
  d !! "tSoil" = Some (JNum t) ∧ d !! "rhSoil" = Some (JNum rh)
  ∧ d !! "tSoilDew" = Some (JNum (dewpoint Math_log t rh)).
Proof.
  intros Hhi Hlo Hh. destruct s as [c i tr d]. cbn [st_i] in *.
  cbv zeta. run_group. lookup_inserts. cbn [default numeric].
  rewrite ?Z.add_0_r, Hhi, Hlo, Hh, !raw16.
  rewrite sign_extend_int16 by apply be16_range. done.
Qed.

Lemma value_soil_0x11 s hi lo h :
  index bytes (st_i s) = Some hi → index bytes (st_i s + 1) = Some lo →
  index bytes (st_i s + 2) = Some h →
  let d := st_decoded (exec (g_run Math_log bytes Soil_0x11) s) in
  let t := (float_of_Z (be16 hi lo) / 256)%float in
  let rh := (float_of_Z (byte_val h) / 256 * 100)%float in
  d !! "tSoil" = Some (JNum t) ∧ d !! "rhSoil" = Some (JNum rh)
  ∧ d !! "tSoilDew" = Some (JNum (dewpoint Math_log t rh)).
Proof.
  intros Hhi Hlo Hh. destruct s as [c i tr d]. cbn [st_i] in *.
  cbv zeta. run_group. lookup_inserts. cbn [default numeric].
  by rewrite ?Z.add_0_r, Hhi, Hlo, Hh, !raw16.
Qed.

End GroupValues.

(** ** The humidity byte and the dew point *)

Lemma leibniz_eq x y : PrimFloat.Leibniz.eqb x y = true → x = y.
Proof. apply FloatAxioms.Leibniz.eqb_spec. Qed.

(** Whatever the byte, [b / 256 * 100 / 100] is [b / 256] again, it is at
    most 0.01 exactly for the bytes 0, 1 and 2, and it never exceeds 1. *)
Lemma humidity_byte b :
  let h := (float_of_Z (byte_val b) / 256 * 100 / 100)%float in
  h = (float_of_Z (byte_val b) / 256)%float
  ∧ (h <=? 0.01)%float = (byte_val b <=? 2)
  ∧ (1.0 <? h)%float = false.
Proof.
  assert (H : forallb (λ b,
    let h := (float_of_Z (byte_val b) / 256 * 100 / 100)%float in
    PrimFloat.Leibniz.eqb h (float_of_Z (byte_val b) / 256)
    && Bool.eqb (h <=? 0.01)%float (byte_val b <=? 2)
    && negb (1.0 <? h)%float) all_bytes = true) by (vm_compute; reflexivity).
  pose proof (for_all_bytes _ H b) as Hb. cbv beta zeta in Hb |- *.
  apply andb_prop in Hb as [Hb H3]. apply andb_prop in Hb as [H1 H2].
  split; [by apply leibniz_eq|]. split.
  - by apply Bool.eqb_prop.
  - by apply negb_true_iff.
Qed.

Lemma dewpoint_of_byte Math_log t b :
  dewpoint Math_log t (float_of_Z (byte_val b) / 256 * 100) =
  magnus Math_log 243.04 17.625 t (humidity_ratio b).
Proof.
  destruct (humidity_byte b) as (Heq & Hlo & Hhi).
  unfold dewpoint, magnus, humidity_ratio. rewrite Hlo, Hhi.
  destruct (byte_val b <=? 2); [reflexivity|]. by rewrite Heq.
Qed.

(** ** The fields of every format *)

Lemma index_nonneg bytes k : is_Some (index bytes k) → 0 ≤ k.
Proof.
  unfold index. destruct (Z.ltb_spec k 0); [by intros [? ?]|lia].
Qed.

(** A message that has a byte at [k] has one at every index from 0 to [k]. *)
Lemma index_below bytes k j :
  0 ≤ j ≤ k → is_Some (index bytes k) → is_Some (index bytes j).
Proof.
  intros Hj. unfold index.
  destruct (Z.ltb_spec k 0), (Z.ltb_spec j 0); try lia.
  rewrite !lookup_lt_is_Some. lia.
Qed.

Ltac group_key := cbn [g_keys]; rewrite !elem_of_cons; auto 10.

Lemma env_located Math_log bytes gl f bit thi tlo phi plo h :
  index bytes 0 = Some f → f ∈ recognized → (bit, Env) ∈ layout f →
  flag (index bytes 1) bit = true →
  index bytes (offset f (index bytes 1) bit) = Some thi →
  index bytes (offset f (index bytes 1) bit + 1) = Some tlo →
  index bytes (offset f (index bytes 1) bit + 2) = Some phi →
  index bytes (offset f (index bytes 1) bit + 3) = Some plo →
  index bytes (offset f (index bytes 1) bit + 4) = Some h →
  let dec := fst (Decoder Math_log bytes gl 1) in
  let t := (float_of_Z (int16 (be16 thi tlo)) / 256)%float in
  let rh := (float_of_Z (byte_val h) / 256 * 100)%float in
  dec !! "tempC" = Some (JNum t)
  ∧ dec !! "p" = Some (JNum (float_of_Z (be16 phi plo) * 4 / 100))
  ∧ dec !! "rh" = Some (JNum rh)
  ∧ dec !! "tDewC" = Some (JNum (dewpoint Math_log t rh)).
Proof.
  intros H0 Hf Hin Hbit H1 H2 H3 H4 H5.
  destruct (group_located Math_log bytes gl f bit Env H0 Hf Hin Hbit)
    as (s & Hi & Hk).
  cbv zeta. rewrite !Hk by group_key.
  apply value_env; rewrite Hi; done.
Qed.

(** X1. In every format, the temperature, pressure, RH group holds a signed
    big-endian 16-bit temperature in 1/256 degree, an unsigned big-endian
    16-bit pressure in units of 4 Pa, given in hPa, and a humidity byte in
    1/256 of 100 percent. *)
Theorem env_group_scaled Math_log bytes gl f bit thi tlo phi plo h :
  index bytes 0 = Some f → f ∈ recognized → (bit, Env) ∈ layout f →
  flag (index bytes 1) bit = true →
  index bytes (offset f (index bytes 1) bit) = Some thi →
  index bytes (offset f (index bytes 1) bit + 1) = Some tlo →
  index bytes (offset f (index bytes 1) bit + 2) = Some phi →
  index bytes (offset f (index bytes 1) bit + 3) = Some plo →
  index bytes (offset f (index bytes 1) bit + 4) = Some h →
  let dec := fst (Decoder Math_log bytes gl 1) in
  dec !! "tempC" = Some (JNum (float_of_Z (int16 (be16 thi tlo)) / 256))
  ∧ dec !! "p" = Some (JNum (float_of_Z (be16 phi plo) * 4 / 100))
  ∧ dec !! "rh" = Some (JNum (float_of_Z (byte_val h) / 256 * 100)).
Proof.
  intros H0 Hf Hin Hbit H1 H2 H3 H4 H5.
  destruct (env_located Math_log bytes gl f bit thi tlo phi plo h
              H0 Hf Hin Hbit H1 H2 H3 H4 H5) as (Ht & Hp & Hrh & _).
  auto.
Qed.

(** X2. In every format [tDewC] is the Magnus formula at the decoded
    temperature and at the humidity byte over 256, floored at 0.01 (which
    happens for the bytes 0, 1 and 2 only); the cap at 1.0 is never reached. *)
Theorem env_dewpoint_from_bytes Math_log bytes gl f bit thi tlo h :
  index bytes 0 = Some f → f ∈ recognized → (bit, Env) ∈ layout f →
  flag (index bytes 1) bit = true →
  index bytes (offset f (index bytes 1) bit) = Some thi →
  index bytes (offset f (index bytes 1) bit + 1) = Some tlo →
  index bytes (offset f (index bytes 1) bit + 4) = Some h →
  fst (Decoder Math_log bytes gl 1) !! "tDewC" =
  Some (JNum (magnus Math_log 243.04 17.625
                (float_of_Z (int16 (be16 thi tlo)) / 256)
                (humidity_ratio h))).
Proof.
  intros H0 Hf Hin Hbit H1 H2 H5.
  assert (Hoff : 0 ≤ offset f (index bytes 1) bit)
    by (apply (index_nonneg bytes); by eexists).
  destruct (index_below bytes (offset f (index bytes 1) bit + 4)
              (offset f (index bytes 1) bit + 2)) as [phi H3]; [lia|by eexists|].
  destruct (index_below bytes (offset f (index bytes 1) bit + 4)
              (offset f (index bytes 1) bit + 3)) as [plo H4]; [lia|by eexists|].
  destruct (env_located Math_log bytes gl f bit thi tlo phi plo h
              H0 Hf Hin Hbit H1 H2 H3 H4 H5) as (_ & _ & _ & Hd).
  by rewrite Hd, dewpoint_of_byte.
Qed.

(** X3. In every format [lux] is the unsigned big-endian 16-bit value of its
    field, unscaled. *)
Theorem lux_unscaled Math_log bytes gl f bit hi lo :
  index bytes 0 = Some f → f ∈ recognized → (bit, Lux) ∈ layout f →
  flag (index bytes 1) bit = true →
  index bytes (offset f (index bytes 1) bit) = Some hi →
  index bytes (offset f (index bytes 1) bit + 1) = Some lo →
  fst (Decoder Math_log bytes gl 1) !! "lux" =
  Some (JNum (float_of_Z (be16 hi lo))).
Proof.
  intros H0 Hf Hin Hbit H1 H2.
  destruct (group_located Math_log bytes gl f bit Lux H0 Hf Hin Hbit)
    as (s & Hi & Hk).
  rewrite Hk by group_key. apply value_lux; rewrite Hi; done.
Qed.

(** X4. In formats 0x14, 0x15 and 0x17, when bit 0x4 is set [boot] is the byte
    of its field, unscaled; when the message ends before that byte, [boot] is
    present and [undefined]. *)
Theorem boot_counter Math_log bytes gl f :
  index bytes 0 = Some f → f ∈ [x14; x15; x17] →
  flag (index bytes 1) 0x4 = true →
  let dec := fst (Decoder Math_log bytes gl 1) in
  (∀ b, index bytes (offset f (index bytes 1) 0x4) = Some b →
        dec !! "boot" = Some (JNum (float_of_Z (byte_val b))))
  ∧ (index bytes (offset f (index bytes 1) 0x4) = None →
     dec !! "boot" = Some JUndef).
Proof.
  intros H0 Hf Hbit dec. subst dec.
  assert (Hrec : f ∈ recognized).
  { unfold recognized. apply elem_of_cons. by right. }
  assert (Hin : (0x4, Boot) ∈ layout f).
  { rewrite !elem_of_cons, elem_of_nil in Hf.
    destruct Hf as [->|[->|[->|[]]]]; cbn [layout]; rewrite !elem_of_cons;
      auto 10. }
  destruct (group_located Math_log bytes gl f 0x4 Boot H0 Hrec Hin Hbit)
    as (s & Hi & Hk).
  rewrite Hk by group_key. rewrite value_boot, Hi.
  split; [intros b ->|intros ->]; reflexivity.
Qed.

(** X5. In format 0x14, when bit 0x20 is set the two counters are the unsigned
    big-endian 16-bit values of their fields, unscaled. *)
Theorem power_counts_unscaled Math_log bytes gl hi1 lo1 hi2 lo2 :
  index bytes 0 = Some x14 → flag (index bytes 1) 0x20 = true →
  index bytes (offset x14 (index bytes 1) 0x20) = Some hi1 →
  index bytes (offset x14 (index bytes 1) 0x20 + 1) = Some lo1 →
  index bytes (offset x14 (index bytes 1) 0x20 + 2) = Some hi2 →
  index bytes (offset x14 (index bytes 1) 0x20 + 3) = Some lo2 →
  let dec := fst (Decoder Math_log bytes gl 1) in
  dec !! "powerUsedCount" = Some (JNum (float_of_Z (be16 hi1 lo1)))
  ∧ dec !! "powerSourcedCount" = Some (JNum (float_of_Z (be16 hi2 lo2))).
Proof.
  intros H0 Hbit H1 H2 H3 H4.
  destruct (group_located Math_log bytes gl x14 0x20 Power H0 recognized_0x14)
    as (s & Hi & Hk); [cbn [layout]; rewrite !elem_of_cons; auto 10|done|].
  cbv zeta. rewrite !Hk by group_key.
  apply value_power; rewrite Hi; done.
Qed.

(** X6. In format 0x14, when bit 0x40 is set the two rates are the
    mini-float values of their fields times 60 * 60 * 4. *)
Theorem power_rates_minifloat Math_log bytes gl hi1 lo1 hi2 lo2 :
  index bytes 0 = Some x14 → flag (index bytes 1) 0x40 = true →
  index bytes (offset x14 (index bytes 1) 0x40) = Some hi1 →
  index bytes (offset x14 (index bytes 1) 0x40 + 1) = Some lo1 →
  index bytes (offset x14 (index bytes 1) 0x40 + 2) = Some hi2 →
  index bytes (offset x14 (index bytes 1) 0x40 + 3) = Some lo2 →
  let dec := fst (Decoder Math_log bytes gl 1) in
  dec !! "powerUsedPerHour" =
    Some (JNum (minifloat (be16 hi1 lo1) * 60 * 60 * 4))
  ∧ dec !! "powerSourcedPerHour" =
    Some (JNum (minifloat (be16 hi2 lo2) * 60 * 60 * 4)).
Proof.
  intros H0 Hbit H1 H2 H3 H4.
  destruct (group_located Math_log bytes gl x14 0x40 Rate H0 recognized_0x14)
    as (s & Hi & Hk); [cbn [layout]; rewrite !elem_of_cons; auto 10|done|].
  cbv zeta. rewrite !Hk by group_key.
  apply value_rate; rewrite Hi; done.
Qed.

(** X7. In format 0x15 the one-wire temperature (bit 0x20) is sign-extended:
    [tWater] is the signed big-endian 16-bit value of its field over 256. *)
Theorem water_temperature_0x15_signed Math_log bytes gl hi lo :
  index bytes 0 = Some x15 → flag (index bytes 1) 0x20 = true →
  index bytes (offset x15 (index bytes 1) 0x20) = Some hi →
  index bytes (offset x15 (index bytes 1) 0x20 + 1) = Some lo →
  fst (Decoder Math_log bytes gl 1) !! "tWater" =
  Some (JNum (float_of_Z (int16 (be16 hi lo)) / 256)).
Proof.
  intros H0 Hbit H1 H2.
  destruct (group_located Math_log bytes gl x15 0x20 Water H0 recognized_0x15)
    as (s & Hi & Hk); [cbn [layout]; rewrite !elem_of_cons; auto 10|done|].
  rewrite Hk by group_key. apply value_water; rewrite Hi; done.
Qed.

(** X8. In format 0x15 the soil group (bit 0x40) holds a signed temperature in
    1/256 degree and a humidity byte in 1/256 of 100 percent; [tSoilDew] is
    the Magnus formula at that temperature and at the humidity byte over 256,
    floored at 0.01. *)
Theorem soil_group_0x15 Math_log bytes gl hi lo h :
  index bytes 0 = Some x15 → flag (index bytes 1) 0x40 = true →
  index bytes (offset x15 (index bytes 1) 0x40) = Some hi →
  index bytes (offset x15 (index bytes 1) 0x40 + 1) = Some lo →
  index bytes (offset x15 (index bytes 1) 0x40 + 2) = Some h →
  let dec := fst (Decoder Math_log bytes gl 1) in
  let t := (float_of_Z (int16 (be16 hi lo)) / 256)%float in
  dec !! "tSoil" = Some (JNum t)
  ∧ dec !! "rhSoil" = Some (JNum (float_of_Z (byte_val h) / 256 * 100))
  ∧ dec !! "tSoilDew" =
    Some (JNum (magnus Math_log 243.04 17.625 t (humidity_ratio h))).
Proof.
  intros H0 Hbit H1 H2 H3.
  destruct (group_located Math_log bytes gl x15 0x40 Soil H0 recognized_0x15)
    as (s & Hi & Hk); [cbn [layout]; rewrite !elem_of_cons; auto 10|done|].
  cbv zeta. rewrite !Hk by group_key. rewrite <- dewpoint_of_byte.
  apply value_soil; rewrite Hi; done.
Qed.

(** X9. In format 0x11 the soil group (bit 0x20) has no sign step: [tSoil] is
    the unsigned big-endian 16-bit value of its field over 256, and [tSoilDew]
    is computed from that temperature. *)
Theorem soil_group_0x11 Math_log bytes gl hi lo h :
  index bytes 0 = Some x11 → flag (index bytes 1) 0x20 = true →
  index bytes (offset x11 (index bytes 1) 0x20) = Some hi →
  index bytes (offset x11 (index bytes 1) 0x20 + 1) = Some lo →
  index bytes (offset x11 (index bytes 1) 0x20 + 2) = Some h →
  let dec := fst (Decoder Math_log bytes gl 1) in
  let t := (float_of_Z (be16 hi lo) / 256)%float in
  dec !! "tSoil" = Some (JNum t)
  ∧ dec !! "rhSoil" = Some (JNum (float_of_Z (byte_val h) / 256 * 100))
  ∧ dec !! "tSoilDew" =
    Some (JNum (magnus Math_log 243.04 17.625 t (humidity_ratio h))).
Proof.
  intros H0 Hbit H1 H2 H3.
  destruct (group_located Math_log bytes gl x11 0x20 Soil_0x11 H0
              recognized_0x11)
    as (s & Hi & Hk); [cbn [layout]; rewrite !elem_of_cons; auto 10|done|].
  cbv zeta. rewrite !Hk by group_key. rewrite <- dewpoint_of_byte.
  apply value_soil_0x11; rewrite Hi; done.
Qed.

(** ** Which bytes a call reads *)

Lemma width_nonneg g : 0 ≤ width g.
Proof. destruct g; vm_compute; discriminate. Qed.

Lemma widths_of_nonneg gs : 0 ≤ total (widths_of gs).
Proof.
  induction gs as [|g gs IH]; [done|].
  change (widths_of (g :: gs)) with (g_widths g ++ widths_of gs).
  rewrite total_app. pose proof (width_nonneg g). unfold width in *. lia.
Qed.

(** A group reads the message only at the indices of its fields. *)
Lemma g_run_ext Math_log b1 b2 g s1 s2 :
  st_i s1 = st_i s2 → st_decoded s1 = st_decoded s2 →
  (∀ k, st_i s1 ≤ k < st_i s1 + width g → index b1 k = index b2 k) →
  st_decoded (exec (g_run Math_log b1 g) s1) =
  st_decoded (exec (g_run Math_log b2 g) s2).
Proof.
  destruct s1 as [c1 i tr1 d], s2 as [c2 i2 tr2 d2]. cbn [st_i st_decoded].
  intros <- <- H.
  destruct g; run_group;
    rewrite ?H by (unfold width, total; cbn; lia); reflexivity.
Qed.

Lemma run_groups_ext Math_log b1 b2 gs s1 s2 :
  st_i s1 = st_i s2 → st_decoded s1 = st_decoded s2 →
  (∀ k, st_i s1 ≤ k < st_i s1 + total (widths_of gs) →
        index b1 k = index b2 k) →
  st_decoded (exec (run_groups Math_log b1 gs) s1) =
  st_decoded (exec (run_groups Math_log b2 gs) s2).
Proof.
  revert s1 s2. induction gs as [|g gs IH]; intros s1 s2 Hi Hd H; [done|].
  change (widths_of (g :: gs)) with (g_widths g ++ widths_of gs) in H.
  rewrite total_app in H. fold (width g) in H.
  pose proof (width_nonneg g). pose proof (widths_of_nonneg gs).
  rewrite !exec_run_groups_cons. apply IH.
  - rewrite !fp_i. lia.
  - apply g_run_ext; [done..|]. intros k Hk. apply H. lia.
  - intros k Hk. rewrite fp_i in Hk. apply H. lia.
Qed.

(** Two messages of recognized formats that select the same groups and
    agree on the bytes of the selected fields decode to the same object. *)
Lemma decoded_ext Math_log b1 b2 gl1 gl2 f1 f2 :
  index b1 0 = Some f1 → index b2 0 = Some f2 →
  f1 ∈ recognized → f2 ∈ recognized →
  selected (index b1 1) (layout f1) = selected (index b2 1) (layout f2) →
  (∀ k, 2 ≤ k < 2 + total (widths_of (selected (index b1 1) (layout f1))) →
        index b1 k = index b2 k) →
  fst (Decoder Math_log b1 gl1 1) = fst (Decoder Math_log b2 gl2 1).
Proof.
  intros H1 H2 Hf1 Hf2 Hsel H. cbn [Decoder fst].
  rewrite (run_recognized Math_log b1 gl1 f1 H1 Hf1).
  rewrite (run_recognized Math_log b2 gl2 f2 H2 Hf2).
  rewrite <- Hsel. by apply run_groups_ext.
Qed.

Lemma selected_ext fl1 fl2 L :
  (∀ bit g, (bit, g) ∈ L → flag fl1 bit = flag fl2 bit) →
  selected fl1 L = selected fl2 L.
Proof.
  induction L as [|[b g] L IH]; intros H; [done|].
  assert (Hb : flag fl1 b = flag fl2 b) by (apply (H b g), list_elem_of_here).
  assert (HL : selected fl1 L = selected fl2 L).
  { apply IH. intros bit g' Hin. apply (H bit g'). by apply list_elem_of_further. }
  destruct (flag fl2 b) eqn:E.
  - by rewrite !selected_cons_true, HL.
  - by rewrite !selected_cons_false, HL.
Qed.

Lemma selected_widths_bound f flags :
  total (widths_of (selected flags (layout f))) ≤ 20.
Proof.
  destruct (decide (f ∈ recognized)) as [Hf|Hf].
  - recognized_cases Hf; cbn [layout]; rewrite !widths_selected_cons; cbn;
      repeat match goal with
             | |- context [if ?c then _ else _] => destruct c
             end; lia.
  - assert (layout f = []) as ->; [|cbn; lia].
    unfold recognized in Hf. rewrite !not_elem_of_cons in Hf.
    destruct Hf as (?&?&?&?&_). by destruct f.
Qed.

Lemma index_app_l b1 b2 k :
  k < Z.of_nat (length b1) → index (b1 ++ b2) k = index b1 k.
Proof.
  intros Hk. unfold index. destruct (Z.ltb_spec k 0); [done|].
  apply lookup_app_l. lia.
Qed.

Lemma index_take n bytes k :
  k < Z.of_nat n → index (take n bytes) k = index bytes k.
Proof.
  intros Hk. unfold index. destruct (Z.ltb_spec k 0); [done|].
  apply lookup_take_lt. lia.
Qed.

Lemma cmd_after_call Math_log bytes gl :
  st_cmd (run Math_log bytes gl 1) = of_element (index bytes 0).
Proof.
  destruct (run_cases Math_log bytes gl 1)
    as [(_ & _ & [?|Hno])|(_ & f & H0 & Hf & ->)].
  - done.
  - by rewrite run_unrecognized.
  - by rewrite run_groups_cmd.
Qed.

Lemma fields_total f flags :
  total (fields f flags) = 1 + total (widths_of (selected flags (layout f))).
Proof. reflexivity. Qed.

Lemma consumed_bound bytes : 1 ≤ consumed bytes ≤ 22.
Proof.
  unfold consumed. destruct (index bytes 0) as [f|]; [|lia].
  destruct (decide (f ∈ recognized)); [|lia]. rewrite fields_total.
  pose proof (selected_widths_bound f (index bytes 1)).
  pose proof (widths_of_nonneg (selected (index bytes 1) (layout f))). lia.
Qed.

(** A call is determined by the bytes it consumes. *)
Lemma decoder_ext Math_log b1 b2 gl port :
  (∀ k, 0 ≤ k < consumed b2 → index b1 k = index b2 k) →
  Decoder Math_log b1 gl port = Decoder Math_log b2 gl port.
Proof.
  intros H. destruct (decide (port = 1)) as [->|Hp];
    [|unfold Decoder; by rewrite !run_other_port].
  assert (H0 : index b1 0 = index b2 0).
  { apply H. pose proof (consumed_bound b2). lia. }
  unfold consumed in H. destruct (index b2 0) as [f|] eqn:E0;
    [destruct (decide (f ∈ recognized)) as [Hf|Hf]|].
  - rewrite fields_total in H.
    pose proof (widths_of_nonneg (selected (index b2 1) (layout f))).
    assert (Hfl : index b1 1 = index b2 1) by (apply H; lia).
    unfold Decoder. cbv zeta. f_equal.
    + apply (decoded_ext Math_log b1 b2 gl gl f f); rewrite ?Hfl; auto.
      intros k Hk. apply H. lia.
    + by rewrite !cmd_after_call, H0, E0.
  - unfold Decoder. rewrite !run_unrecognized; [|congruence..].
    unfold entered. by rewrite H0, E0.
  - unfold Decoder. rewrite !run_unrecognized; [|congruence..].
    unfold entered. by rewrite H0, E0.
Qed.

(** X10. Bytes after the last selected field are not looked at: a message that
    holds all the fields its bitmap selects decodes the same with anything
    appended. *)
Theorem trailing_bytes_ignored Math_log bytes extra gl port :
  consumed bytes ≤ Z.of_nat (length bytes) →
  Decoder Math_log (bytes ++ extra) gl port = Decoder Math_log bytes gl port.
Proof.
  intros Hlen. apply decoder_ext. intros k Hk. apply index_app_l. lia.
Qed.

(** X11. No call looks past the first 22 bytes of the message (the longest
    layout is that of format 0x14 with all seven groups). *)
Theorem reads_at_most_22_bytes Math_log bytes gl port :
  Decoder Math_log (take 22 bytes) gl port = Decoder Math_log bytes gl port.
Proof.
  apply decoder_ext. intros k Hk. pose proof (consumed_bound bytes).
  apply index_take. lia.
Qed.

Lemma index_tail f fl fl' rest k :
  2 ≤ k → index (f :: fl :: rest) k = index (f :: fl' :: rest) k.
Proof.
  intros Hk. unfold index. destruct (Z.ltb_spec k 0); [done|].
  replace (Z.to_nat k) with (S (S (Z.to_nat (k - 2)))) by lia. done.
Qed.

(** X12. The bits of the bitmap that guard no group in a format (0x80 in all
    of them, 0x40 in formats 0x11 and 0x17) change nothing. *)
Theorem unused_bits_ignored Math_log f fl fl' rest gl :
  f ∈ recognized →
  (∀ bit g, (bit, g) ∈ layout f → flag (Some fl) bit = flag (Some fl') bit) →
  Decoder Math_log (f :: fl :: rest) gl 1 =
  Decoder Math_log (f :: fl' :: rest) gl 1.
Proof.
  intros Hf Hbits. unfold Decoder. cbv zeta. f_equal.
  - apply (decoded_ext Math_log _ _ gl gl f f); try done.
    + by apply selected_ext.
    + intros k Hk. apply index_tail. lia.
  - by rewrite !cmd_after_call.
Qed.

Lemma selected_common f fl :
  f ∈ [x14; x15; x17] →
  flag (Some fl) 0x20 = false → flag (Some fl) 0x40 = false →
  selected (Some fl) (layout f) =
  selected (Some fl)
    [(0x1, VBat); (0x2, VBus); (0x4, Boot); (0x8, Env); (0x10, Lux)].
Proof.
  intros Hf H20 H40. rewrite !elem_of_cons, elem_of_nil in Hf.
  destruct Hf as [->|[->|[->|[]]]]; cbn [layout];
    match goal with
    | |- selected _ ?L = selected _ ?C =>
        change L with (C ++ drop 5 L); rewrite selected_app; cbn [drop]
    end;
    rewrite (selected_cons_false _ 0x20) by done;
    rewrite ?(selected_cons_false _ 0x40) by done;
    change (selected (Some fl) []) with (@nil field_group);
    by rewrite app_nil_r.
Qed.

(** X13. Formats 0x14, 0x15 and 0x17 differ only in the groups of bits 0x20
    and 0x40: with both clear, the same bytes decode alike under the three
    format bytes. *)
Theorem common_groups_agree Math_log f1 f2 fl rest gl :
  f1 ∈ [x14; x15; x17] → f2 ∈ [x14; x15; x17] →
  flag (Some fl) 0x20 = false → flag (Some fl) 0x40 = false →
  fst (Decoder Math_log (f1 :: fl :: rest) gl 1) =
  fst (Decoder Math_log (f2 :: fl :: rest) gl 1).
Proof.
  intros Hf1 Hf2 H20 H40.
  apply (decoded_ext Math_log _ _ gl gl f1 f2); try done.
  - unfold recognized. apply elem_of_cons. by right.
  - unfold recognized. apply elem_of_cons. by right.
  - change (index (f1 :: fl :: rest) 1) with (Some fl).
    change (index (f2 :: fl :: rest) 1) with (Some fl).
    by rewrite !selected_common.
  - intros k Hk. unfold index. destruct (Z.ltb_spec k 0); [done|].
    replace (Z.to_nat k) with (S (Z.to_nat (k - 1))) by lia. done.
Qed.

(** ** Which properties a format can produce *)

Lemma layout_unrecognized f : f ∉ recognized → layout f = [].
Proof.
  unfold recognized. rewrite !not_elem_of_cons.
  intros (?&?&?&?&_). by destruct f.
Qed.

Lemma g_keys_inhabited g : ∃ k, k ∈ g_keys g.
Proof. destruct g; eexists; apply list_elem_of_here. Qed.

(** A property that is present was written by a selected group of the
    layout of the message's format, in a call on port 1. *)
Lemma present_group Math_log bytes gl port k :
  is_Some (fst (Decoder Math_log bytes gl port) !! k) →
  port = 1 ∧ ∃ f bit g, index bytes 0 = Some f ∧ f ∈ recognized
                        ∧ (bit, g) ∈ layout f
                        ∧ flag (index bytes 1) bit = true ∧ k ∈ g_keys g.
Proof.
  cbn [Decoder fst].
  destruct (run_cases Math_log bytes gl port)
    as [(-> & _)|(-> & f & H0 & Hf & ->)].
  - rewrite lookup_empty. by intros [? ?].
  - intros Hk. split; [done|]. exists f.
    apply elem_of_dom in Hk. rewrite run_groups_dom in Hk.
    cbn [after_flags entered st_decoded] in Hk.
    rewrite dom_empty_L, (right_id_L ∅ (∪)), elem_of_list_to_set in Hk.
    unfold keys_of in Hk. apply list_elem_of_bind in Hk as (g & Hkg & Hg).
    apply elem_of_selected in Hg as (bit & Hin & Hbit).
    by exists bit, g.
Qed.

(** X14. The object returned is empty exactly when the port is not 1 or the
    bitmap sets no bit that guards a group of the message's format: an
    unrecognized format has no group, and a message without a bitmap byte sets
    no bit. *)
Theorem empty_object_iff Math_log bytes gl port :
  fst (Decoder Math_log bytes gl port) = ∅ ↔
  port ≠ 1 ∨ ∀ f bit g, index bytes 0 = Some f → (bit, g) ∈ layout f →
                        flag (index bytes 1) bit = false.
Proof.
  split.
  - intros Hempty. destruct (decide (port = 1)) as [->|Hp]; [right|by left].
    intros f bit g H0 Hin.
    destruct (flag (index bytes 1) bit) eqn:Hbit; [exfalso|done].
    destruct (decide (f ∈ recognized)) as [Hf|Hf];
      [|rewrite (layout_unrecognized f Hf) in Hin; by apply elem_of_nil in Hin].
    destruct (g_keys_inhabited g) as [k Hk].
    destruct (group_located Math_log bytes gl f bit g H0 Hf Hin Hbit)
      as (s & _ & Hs).
    specialize (Hs k Hk). rewrite Hempty, lookup_empty in Hs.
    symmetry in Hs. apply not_elem_of_dom in Hs. apply Hs.
    rewrite fp_dom, elem_of_union, elem_of_list_to_set. by left.
  - intros Hno. apply map_empty. intros k. apply eq_None_not_Some.
    intros (-> & f & bit & g & H0 & _ & Hin & Hbit & _)%present_group.
    destruct Hno as [?|Hno]; [done|].
    rewrite (Hno f bit g H0 Hin) in Hbit. discriminate.
Qed.

(** X15. Some properties belong to one format: [aqi] to 0x17, the power
    counters and rates to 0x14; [boot] is never produced by format 0x11, and
    [tWater] and the soil properties only by formats 0x11 and 0x15. *)
Theorem format_specific_keys Math_log bytes gl port k :
  is_Some (fst (Decoder Math_log bytes gl port) !! k) →
  (k = "aqi" → index bytes 0 = Some x17)
  ∧ (k ∈ ["powerUsedCount"; "powerSourcedCount"; "powerUsedPerHour";
          "powerSourcedPerHour"] → index bytes 0 = Some x14)
  ∧ (k = "boot" → index bytes 0 ≠ Some x11)
  ∧ (k ∈ ["tWater"; "tSoil"; "rhSoil"; "tSoilDew"] →
     index bytes 0 = Some x11 ∨ index bytes 0 = Some x15).
Proof.
  intros (_ & f & bit & g & H0 & Hf & Hin & _ & Hk)%present_group.
  rewrite H0. rewrite !elem_of_cons, !elem_of_nil.
  recognized_cases Hf; cbn [layout] in Hin;
    rewrite !elem_of_cons, elem_of_nil in Hin;
    repeat destruct Hin as [Hin|Hin]; try done;
    injection Hin as -> ->; cbn [g_keys] in Hk;
    rewrite !elem_of_cons, elem_of_nil in Hk;
    repeat destruct Hk as [Hk|Hk]; try done; subst k;
    (repeat split; [intros; try done; intuition discriminate..]).
Qed.

(** ** Messages that end inside a field *)

Lemma raw16_short a : add (shl (ToNumber a) 8) (ToNumber None) = NaNi.
Proof. by destruct a. Qed.

Lemma raw16_cases a b :
  (∃ hi lo, add (shl (ToNumber a) 8) (ToNumber b) = Some (be16 hi lo))
  ∨ add (shl (ToNumber a) 8) (ToNumber b) = NaNi.
Proof.
  destruct a as [hi|], b as [lo|]; [left|by right|left|by right].
  - exists hi, lo. apply raw16.
  - exists x00, lo. reflexivity.
Qed.

Lemma index_short bytes k j : k ≤ j → index bytes k = None → 0 ≤ k → index bytes j = None.
Proof.
  intros Hj Hk H0. destruct (index bytes j) eqn:E; [|done].
  destruct (index_below bytes j k) as [? ?]; [lia|by eexists|congruence].
Qed.

Section Truncated.

Variable Math_log : float → float.
Variable bytes : list byte.

(** A group made of 16-bit values stored as they are, or over a constant. *)
Lemma value_short g s k :
  g ∈ [VBat; VBus; Lux; Water; Water_0x11; Power] → k ∈ g_keys g →
  0 ≤ st_i s → index bytes (st_i s + 1) = None →
  st_decoded (exec (g_run Math_log bytes g) s) !! k = Some (JNum nan).
Proof.
  intros Hg Hk Hi Hlo. destruct s as [c i tr d]. cbn [st_i] in *.
  assert (H3 : index bytes (i + 2 + 1) = None)
    by (apply (index_short bytes (i + 1)); [lia|done|lia]).
  rewrite !elem_of_cons, elem_of_nil in Hg.
  destruct Hg as [->|[->|[->|[->|[->|[->|[]]]]]]]; cbn [g_keys] in Hk;
    rewrite !elem_of_cons, elem_of_nil in Hk;
    repeat destruct Hk as [Hk|Hk]; try done; subst k;
    run_group; lookup_inserts; rewrite ?Hlo, ?H3, !raw16_short; reflexivity.
Qed.

(** A mini-float that is not there reads as zero. *)
Lemma value_short_minifloat g s k :
  g ∈ [Aqi; Rate] → k ∈ g_keys g →
  0 ≤ st_i s → index bytes (st_i s + 1) = None →
  st_decoded (exec (g_run Math_log bytes g) s) !! k = Some (JNum 0).
Proof.
  intros Hg Hk Hi Hlo. destruct s as [c i tr d]. cbn [st_i] in *.
  assert (H3 : index bytes (i + 2 + 1) = None)
    by (apply (index_short bytes (i + 1)); [lia|done|lia]).
  rewrite !elem_of_cons, elem_of_nil in Hg.
  destruct Hg as [->|[->|[]]]; cbn [g_keys] in Hk;
    rewrite !elem_of_cons, elem_of_nil in Hk;
    repeat destruct Hk as [Hk|Hk]; try done; subst k;
    run_group; lookup_inserts; rewrite ?Hlo, ?H3, !raw16_short;
    vm_compute; reflexivity.
Qed.

End Truncated.

Lemma offset_nonneg f flags bit : 0 ≤ offset f flags bit.
Proof.
  unfold offset.
  pose proof (widths_of_nonneg (selected flags (before bit (layout f)))). lia.
Qed.

(** X16. No read is bounds-checked. When the message ends before the second
    byte of the 16-bit field of a voltage, of lux, of a one-wire temperature
    or of the first power counter, the property is still produced, with the
    value NaN. *)
Theorem truncated_field_is_NaN Math_log bytes gl f bit g k :
  index bytes 0 = Some f → f ∈ recognized → (bit, g) ∈ layout f →
  flag (index bytes 1) bit = true →
  g ∈ [VBat; VBus; Lux; Water; Water_0x11; Power] → k ∈ g_keys g →
  index bytes (offset f (index bytes 1) bit + 1) = None →
  fst (Decoder Math_log bytes gl 1) !! k = Some (JNum nan).
Proof.
  intros H0 Hf Hin Hbit Hg Hk Hshort.
  destruct (group_located Math_log bytes gl f bit g H0 Hf Hin Hbit)
    as (s & Hi & Hs).
  rewrite (Hs k Hk). apply value_short; rewrite ?Hi; try done.
  apply offset_nonneg.
Qed.

(** X17. When the message ends before the second byte of a mini-float field,
    [aqi] (format 0x17) and the power rates (format 0x14) are produced with
    the value 0: NaN is turned into 0 by the shift and the mask. *)
Theorem truncated_minifloat_is_zero Math_log bytes gl f bit g k :
  index bytes 0 = Some f → f ∈ recognized → (bit, g) ∈ layout f →
  flag (index bytes 1) bit = true →
  g ∈ [Aqi; Rate] → k ∈ g_keys g →
  index bytes (offset f (index bytes 1) bit + 1) = None →
  fst (Decoder Math_log bytes gl 1) !! k = Some (JNum 0).
Proof.
  intros H0 Hf Hin Hbit Hg Hk Hshort.
  destruct (group_located Math_log bytes gl f bit g H0 Hf Hin Hbit)
    as (s & Hi & Hs).
  rewrite (Hs k Hk). apply value_short_minifloat; rewrite ?Hi; try done.
  apply offset_nonneg.
Qed.

(** ** The values a property can take *)

Section KeyInvariant.

Variable Math_log : float → float.
Variable bytes : list byte.

Lemma run_groups_invariant_in (P : gmap string jsval → Prop) gs :
  (∀ g s, g ∈ gs → P (st_decoded s) →
          P (st_decoded (exec (g_run Math_log bytes g) s))) →
  ∀ s, P (st_decoded s) →
       P (st_decoded (exec (run_groups Math_log bytes gs) s)).
Proof.
  induction gs as [|g gs IH]; intros Hstep s Hs; [done|].
  rewrite exec_run_groups_cons. apply IH.
  - intros g' s' Hg'. apply Hstep. by apply list_elem_of_further.
  - apply Hstep; [apply list_elem_of_here|done].
Qed.

(** What holds of the value a group of the message's format stores under
    [k], whatever the state it runs in, holds of the value returned under
    [k]. *)
Lemma key_invariant k (Q : jsval → Prop) :
  (∀ f bit g s v, index bytes 0 = Some f → f ∈ recognized →
     (bit, g) ∈ layout f → k ∈ g_keys g →
     st_decoded (exec (g_run Math_log bytes g) s) !! k = Some v → Q v) →
  ∀ gl port v, fst (Decoder Math_log bytes gl port) !! k = Some v → Q v.
Proof.
  intros Hstep gl port. cbn [Decoder fst].
  destruct (run_cases Math_log bytes gl port)
    as [(-> & _)|(-> & f & H0 & Hf & ->)].
  - intros v. by rewrite lookup_empty.
  - apply (run_groups_invariant_in (λ d, ∀ v, d !! k = Some v → Q v));
      [|intros v; cbn [after_flags entered st_decoded]; by rewrite lookup_empty].
    intros g s (bit & Hin & _)%elem_of_selected Hs v.
    destruct (decide (k ∈ g_keys g)) as [Hk|Hk].
    + by apply (Hstep f bit g s v).
    + rewrite fp_frame by done. apply Hs.
Qed.

Lemma key_invariant_num k (R : float → Prop) :
  (∀ f bit g s x, index bytes 0 = Some f → f ∈ recognized →
     (bit, g) ∈ layout f → k ∈ g_keys g →
     st_decoded (exec (g_run Math_log bytes g) s) !! k = Some (JNum x) → R x) →
  ∀ gl port x, fst (Decoder Math_log bytes gl port) !! k = Some (JNum x) → R x.
Proof.
  intros Hstep gl port x Hx.
  apply (key_invariant k (λ v, ∀ x, v = JNum x → R x)) with gl port (JNum x);
    [|done..].
  intros f bit g s v H0 Hf Hin Hk Hv x' ->. by apply (Hstep f bit g s).
Qed.

End KeyInvariant.

Ltac layout_cases Hf Hin Hk :=
  recognized_cases Hf; cbn [layout] in Hin;
  rewrite !elem_of_cons, elem_of_nil in Hin;
  repeat destruct Hin as [Hin|Hin]; try done;
  injection Hin as -> ->; cbn [g_keys] in Hk;
  rewrite !elem_of_cons, elem_of_nil in Hk;
  repeat destruct Hk as [Hk|Hk]; try done.

(** X18. Every property is a Number, except [error], which is the string
    "none", and [boot], which is [undefined] when the message ends before its
    byte. *)
Theorem value_types Math_log bytes gl port k v :
  fst (Decoder Math_log bytes gl port) !! k = Some v →
  (k = "error" → v = JStr "none")
  ∧ (k = "boot" → v = JUndef ∨ ∃ b, v = JNum (float_of_Z (byte_val b)))
  ∧ (k ≠ "error" → k ≠ "boot" → ∃ x, v = JNum x).
Proof.
  revert gl port v. apply key_invariant.
  intros f bit g s v H0 Hf Hin Hk. destruct s as [c i tr d].
  destruct g; cbn [g_keys] in Hk; rewrite !elem_of_cons, elem_of_nil in Hk;
    repeat destruct Hk as [Hk|Hk]; try done; subst k;
    run_group; lookup_inserts; intros [= <-];
    (split; [done|split; [|intros; first [done|by eexists]]]); try done.
  intros _. destruct (index bytes (i + 0)) as [b|]; [right; by exists b|by left].
Qed.

(** The ranges of the scaled values, checked on every 16-bit raw value and
    on every byte. *)
Lemma signed_ranges hi lo :
  let v := float_of_Z (int16 (be16 hi lo)) in
  ((-8 <=? v / 4096)%float = true ∧ (v / 4096 <? 8)%float = true)
  ∧ ((-128 <=? v / 256)%float = true ∧ (v / 256 <? 128)%float = true).
Proof.
  assert (H : on_all_pairs (λ hi lo,
    let v := float_of_Z (int16 (be16 hi lo)) in
    ((-8 <=? v / 4096) && (v / 4096 <? 8)
     && ((-128 <=? v / 256) && (v / 256 <? 128)))%float) = true)
    by (vm_compute; reflexivity).
  pose proof (for_all_pairs _ H hi lo) as Hp. cbv beta zeta in Hp |- *.
  apply andb_prop in Hp as [[H1 H2]%andb_prop [H3 H4]%andb_prop]. auto.
Qed.

Lemma unsigned_ranges hi lo :
  let v := float_of_Z (be16 hi lo) in
  ((0 <=? v / 256)%float = true ∧ (v / 256 <? 256)%float = true)
  ∧ ((0 <=? v * 4 / 100)%float = true ∧ (v * 4 / 100 <=? 2621.4)%float = true).
Proof.
  assert (H : on_all_pairs (λ hi lo,
    let v := float_of_Z (be16 hi lo) in
    ((0 <=? v / 256) && (v / 256 <? 256)
     && ((0 <=? v * 4 / 100) && (v * 4 / 100 <=? 2621.4)))%float) = true)
    by (vm_compute; reflexivity).
  pose proof (for_all_pairs _ H hi lo) as Hp. cbv beta zeta in Hp |- *.
  apply andb_prop in Hp as [[H1 H2]%andb_prop [H3 H4]%andb_prop]. auto.
Qed.

Lemma minifloat_ranges hi lo :
  let m := minifloat (be16 hi lo) in
  ((0 <=? m * 512)%float = true ∧ (m * 512 <=? 511.875)%float = true)
  ∧ ((0 <=? m * 60 * 60 * 4)%float = true
     ∧ (m * 60 * 60 * 4 <=? 14396.484375)%float = true).
Proof.
  assert (H : on_all_pairs (λ hi lo,
    let m := minifloat (be16 hi lo) in
    ((0 <=? m * 512) && (m * 512 <=? 511.875)
     && ((0 <=? m * 60 * 60 * 4) && (m * 60 * 60 * 4 <=? 14396.484375)))%float)
    = true) by (vm_compute; reflexivity).
  pose proof (for_all_pairs _ H hi lo) as Hp. cbv beta zeta in Hp |- *.
  apply andb_prop in Hp as [[H1 H2]%andb_prop [H3 H4]%andb_prop]. auto.
Qed.

Lemma humidity_range b :
  let rh := (float_of_Z (byte_val b) / 256 * 100)%float in
  (0 <=? rh)%float = true ∧ (rh <=? 99.609375)%float = true.
Proof.
  assert (H : forallb (λ b,
    let rh := (float_of_Z (byte_val b) / 256 * 100)%float in
    ((0 <=? rh) && (rh <=? 99.609375))%float) all_bytes = true)
    by (vm_compute; reflexivity).
  pose proof (for_all_bytes _ H b) as Hb. cbv beta zeta in Hb |- *.
  by apply andb_prop in Hb.
Qed.

(** The cases of a key of a group, and the value a group stored under it. *)
Ltac group_keys Hk :=
  cbn [g_keys] in Hk; rewrite !elem_of_cons, elem_of_nil in Hk;
  repeat destruct Hk as [Hk|Hk]; try done.

Lemma some_num_inj x y : Some (JNum x) = Some (JNum y) → x = y.
Proof. by intros [= ->]. Qed.

Ltac stored_value i x :=
  run_group; lookup_inserts; field_indices i;
  let E := fresh in intros E; apply some_num_inj in E; subst x.


(** X19. The voltages are NaN (the message ended inside the field) or at least
    -8 and below 8. *)
Theorem voltages_bounded Math_log bytes gl port k x :
  k ∈ ["vBat"; "vBus"] →
  fst (Decoder Math_log bytes gl port) !! k = Some (JNum x) →
  PrimFloat.is_nan x = true
  ∨ (-8 <=? x)%float = true ∧ (x <? 8)%float = true.
Proof.
  intros Hks. revert gl port x. apply key_invariant_num.
  intros f bit g s x _ _ _ Hk.
  destruct s as [c i tr d]. rewrite !elem_of_cons, elem_of_nil in Hks.
  destruct g; group_keys Hk; subst k;
    try (exfalso; intuition discriminate);
    stored_value i x;
    (destruct (raw16_cases (index bytes i) (index bytes (i + 1)))
       as [(hi & lo & ->)| ->]; [right|by left]);
    rewrite sign_extend_int16 by apply be16_range;
    apply signed_ranges.
Qed.

Ltac other_format H0 Hin E :=
  exfalso; rewrite E in H0; injection H0 as <-; cbn [layout] in Hin;
  rewrite !elem_of_cons, elem_of_nil in Hin; intuition discriminate.

(** X20. The temperatures that go through the sign step, [tempC] in every
    format and [tWater] and [tSoil] in format 0x15, are NaN or at least -128
    and below 128. *)
Theorem signed_temperatures_bounded Math_log bytes gl port k x :
  k = "tempC" ∨ (k ∈ ["tWater"; "tSoil"] ∧ index bytes 0 = Some x15) →
  fst (Decoder Math_log bytes gl port) !! k = Some (JNum x) →
  PrimFloat.is_nan x = true
  ∨ (-128 <=? x)%float = true ∧ (x <? 128)%float = true.
Proof.
  intros Hcase. revert gl port x. apply key_invariant_num.
  intros f bit g s x H0 Hf Hin Hk.
  destruct s as [c i tr d]. rewrite !elem_of_cons, elem_of_nil in Hcase.
  destruct g; group_keys Hk; subst k;
    try (exfalso; intuition discriminate);
    try (destruct Hcase as [?|[_ E]]; [discriminate|other_format H0 Hin E]);
    stored_value i x;
    (destruct (raw16_cases (index bytes i) (index bytes (i + 1)))
       as [(hi & lo & ->)| ->]; [right|by left]);
    rewrite sign_extend_int16 by apply be16_range;
    apply signed_ranges.
Qed.

(** X21. Format 0x11 has no sign step for [tWater] and [tSoil]: they are never
    negative there, whatever the sensor measured; they are NaN or at least 0
    and below 256. *)
Theorem temperatures_0x11_nonnegative Math_log bytes gl port k x :
  index bytes 0 = Some x11 → k ∈ ["tWater"; "tSoil"] →
  fst (Decoder Math_log bytes gl port) !! k = Some (JNum x) →
  PrimFloat.is_nan x = true
  ∨ (0 <=? x)%float = true ∧ (x <? 256)%float = true.
Proof.
  intros E Hcase. revert gl port x. apply key_invariant_num.
  intros f bit g s x H0 Hf Hin Hk.
  destruct s as [c i tr d]. rewrite !elem_of_cons, elem_of_nil in Hcase.
  destruct g; group_keys Hk; subst k;
    try (exfalso; intuition discriminate);
    try (other_format H0 Hin E);
    stored_value i x;
    (destruct (raw16_cases (index bytes i) (index bytes (i + 1)))
       as [(hi & lo & ->)| ->]; [right|by left]);
    apply unsigned_ranges.
Qed.

(** X22. The relative humidities are NaN or between 0 and 99.609375, so never
    100; the pressure is NaN or between 0 and 2621.4. *)
Theorem humidity_pressure_bounded Math_log bytes gl port k x :
  fst (Decoder Math_log bytes gl port) !! k = Some (JNum x) →
  (k ∈ ["rh"; "rhSoil"] →
   PrimFloat.is_nan x = true
   ∨ (0 <=? x)%float = true ∧ (x <=? 99.609375)%float = true)
  ∧ (k = "p" →
     PrimFloat.is_nan x = true
     ∨ (0 <=? x)%float = true ∧ (x <=? 2621.4)%float = true).
Proof.
  revert gl port x. apply key_invariant_num.
  intros f bit g s x _ _ _ Hk.
  destruct s as [c i tr d]. rewrite !elem_of_cons, elem_of_nil.
  destruct g; group_keys Hk; subst k;
    try (split; intros; exfalso; intuition discriminate);
    stored_value i x;
    (split; intros Hc; try (exfalso; clear -Hc; intuition discriminate);
     clear Hc).
  - destruct (raw16_cases (index bytes (i + 2)) (index bytes (i + 3)))
      as [(hi & lo & ->)| ->]; [right|by left].
    apply unsigned_ranges.
  - destruct (index bytes (i + 4)) as [b|]; [right|by left].
    apply humidity_range.
  - destruct (index bytes (i + 2)) as [b|]; [right|by left].
    apply humidity_range.
  - destruct (index bytes (i + 2)) as [b|]; [right|by left].
    apply humidity_range.
Qed.

(** X23. The mini-float values are never NaN, even when the message ends
    inside the field: [aqi] lies between 0 and 511.875, the power rates
    between 0 and 14396.484375. *)
Theorem minifloat_values_bounded Math_log bytes gl port k x :
  fst (Decoder Math_log bytes gl port) !! k = Some (JNum x) →
  (k = "aqi" → (0 <=? x)%float = true ∧ (x <=? 511.875)%float = true)
  ∧ (k ∈ ["powerUsedPerHour"; "powerSourcedPerHour"] →
     (0 <=? x)%float = true ∧ (x <=? 14396.484375)%float = true).
Proof.
  revert gl port x. apply key_invariant_num.
  intros f bit g s x _ _ _ Hk.
  destruct s as [c i tr d]. rewrite !elem_of_cons, elem_of_nil.
  destruct g; group_keys Hk; subst k;
    try (split; intros; exfalso; intuition discriminate);
    stored_value i x;
    (split; intros Hc; try (exfalso; clear -Hc; intuition discriminate);
     clear Hc).
  - destruct (raw16_cases (index bytes i) (index bytes (i + 1)))
      as [(hi & lo & ->)| ->]; [|by vm_compute].
    pose proof (be16_range hi lo). rewrite band_0xFFF, shr12 by done.
    apply minifloat_ranges.
  - destruct (raw16_cases (index bytes (i + 2)) (index bytes (i + 3)))
      as [(hi & lo & ->)| ->]; [|by vm_compute].
    pose proof (be16_range hi lo). rewrite band_0xFFF, shr12 by done.
    apply minifloat_ranges.
  - destruct (raw16_cases (index bytes i) (index bytes (i + 1)))
      as [(hi & lo & ->)| ->]; [|by vm_compute].
    pose proof (be16_range hi lo). rewrite band_0xFFF, shr12 by done.
    apply minifloat_ranges.
Qed.

(** ** Messages that hold all their fields *)

Lemma index_defined bytes k :
  0 ≤ k < Z.of_nat (length bytes) → ∃ b, index bytes k = Some b.
Proof.
  intros Hk. unfold index. destruct (Z.ltb_spec k 0); [lia|].
  apply lookup_lt_is_Some. lia.
Qed.

(** No scaling of a raw value produces NaN. *)
Lemma scaled_not_nan hi lo :
  let s := float_of_Z (int16 (be16 hi lo)) in
  let u := float_of_Z (be16 hi lo) in
  let m := minifloat (be16 hi lo) in
  PrimFloat.is_nan (s / 4096) = false ∧ PrimFloat.is_nan (s / 256) = false
  ∧ PrimFloat.is_nan (u / 256) = false ∧ PrimFloat.is_nan (u * 4 / 100) = false
  ∧ PrimFloat.is_nan u = false ∧ PrimFloat.is_nan (m * 512) = false
  ∧ PrimFloat.is_nan (m * 60 * 60 * 4) = false.
Proof.
  assert (H : on_all_pairs (λ hi lo,
    let s := float_of_Z (int16 (be16 hi lo)) in
    let u := float_of_Z (be16 hi lo) in
    let m := minifloat (be16 hi lo) in
    negb (PrimFloat.is_nan (s / 4096) || PrimFloat.is_nan (s / 256)
          || PrimFloat.is_nan (u / 256) || PrimFloat.is_nan (u * 4 / 100)
          || PrimFloat.is_nan u || PrimFloat.is_nan (m * 512)
          || PrimFloat.is_nan (m * 60 * 60 * 4))) = true)
    by (vm_compute; reflexivity).
  pose proof (for_all_pairs _ H hi lo) as Hp. cbv beta zeta in Hp |- *.
  apply negb_true_iff in Hp. rewrite !orb_false_iff in Hp. tauto.
Qed.

Lemma byte_not_nan b :
  PrimFloat.is_nan (float_of_Z (byte_val b)) = false
  ∧ PrimFloat.is_nan (float_of_Z (byte_val b) / 256 * 100) = false.
Proof.
  assert (H : forallb (λ b,
    negb (PrimFloat.is_nan (float_of_Z (byte_val b))
          || PrimFloat.is_nan (float_of_Z (byte_val b) / 256 * 100)))
    all_bytes = true) by (vm_compute; reflexivity).
  pose proof (for_all_bytes _ H b) as Hb. cbv beta in Hb.
  apply negb_true_iff in Hb. by rewrite orb_false_iff in Hb.
Qed.

Section Complete.

Variable Math_log : float → float.
Variable bytes : list byte.

Lemma run_groups_invariant_upto (P : gmap string jsval → Prop) B gs s :
  0 ≤ st_i s → st_i s + total (widths_of gs) ≤ B →
  (∀ g s', 0 ≤ st_i s' → st_i s' + width g ≤ B → P (st_decoded s') →
           P (st_decoded (exec (g_run Math_log bytes g) s'))) →
  P (st_decoded s) →
  P (st_decoded (exec (run_groups Math_log bytes gs) s)).
Proof.
  intros Hi HB Hstep. revert s Hi HB.
  induction gs as [|g gs IH]; intros s Hi HB Hs; [done|].
  change (widths_of (g :: gs)) with (g_widths g ++ widths_of gs) in HB.
  rewrite total_app in HB. fold (width g) in HB.
  pose proof (width_nonneg g). pose proof (widths_of_nonneg gs).
  rewrite exec_run_groups_cons. apply IH.
  - rewrite fp_i. lia.
  - rewrite fp_i. lia.
  - apply Hstep; [done|lia|done].
Qed.

Ltac bytes_present :=
  repeat match goal with
         | |- context [index bytes ?k] =>
             let b := fresh "b" in
             let E := fresh "E" in
             destruct (index_defined bytes k) as [b E]; [lia|]; rewrite E
         end.

Lemma group_defined g s k v :
  0 ≤ st_i s → st_i s + width g ≤ Z.of_nat (length bytes) →
  k ∈ g_keys g → k ∉ ["tDewC"; "tSoilDew"] →
  st_decoded (exec (g_run Math_log bytes g) s) !! k = Some v →
  v ≠ JUndef ∧ ∀ x, v = JNum x → PrimFloat.is_nan x = false.
Proof.
  intros Hi Hw Hk Hdew. destruct s as [c i tr d]. cbn [st_i] in *.
  rewrite !not_elem_of_cons in Hdew. destruct Hdew as (Hd1 & Hd2 & _).
  destruct g; unfold width, total in Hw; cbn in Hw; group_keys Hk; subst k;
    try done; run_group; lookup_inserts; bytes_present;
    rewrite ?raw16, ?sign_extend_int16 by apply be16_range;
    rewrite ?band_0xFFF, ?shr12 by apply be16_range;
    intros [= <-]; (split; [done|]); try (intros ? [= <-]);
    first [apply scaled_not_nan | apply byte_not_nan | done].
Qed.

End Complete.

(** X24. A message that holds all the fields its bitmap selects decodes to
    defined values: no property is [undefined] and no Number is NaN, the dew
    points apart (they are what [Math.log] makes them). *)
Theorem complete_message_defined Math_log bytes gl port k v :
  consumed bytes ≤ Z.of_nat (length bytes) →
  k ∉ ["tDewC"; "tSoilDew"] →
  fst (Decoder Math_log bytes gl port) !! k = Some v →
  v ≠ JUndef ∧ ∀ x, v = JNum x → PrimFloat.is_nan x = false.
Proof.
  intros Hlen Hdew. cbn [Decoder fst].
  destruct (run_cases Math_log bytes gl port)
    as [(-> & _)|(-> & f & H0 & Hf & ->)]; [by rewrite lookup_empty|].
  unfold consumed in Hlen. rewrite H0, decide_True, fields_total in Hlen by done.
  revert v.
  apply (run_groups_invariant_upto Math_log bytes
           (λ d, ∀ v, d !! k = Some v →
                 v ≠ JUndef ∧ ∀ x, v = JNum x → PrimFloat.is_nan x = false)
           (Z.of_nat (length bytes))).
  - cbn. lia.
  - cbn [after_flags st_i]. lia.
  - intros g s Hi Hw Hs v. destruct (decide (k ∈ g_keys g)) as [Hk|Hk].
    + by apply group_defined.
    + rewrite fp_frame by done. apply Hs.
  - intros v. cbn [after_flags entered st_decoded]. by rewrite lookup_empty.
Qed.

(** ** The further properties on messages *)

Ltac in_list :=
  repeat first [apply list_elem_of_here | apply list_elem_of_further].

(** [17 0D F8 00 42 17 80 59 35 80]: tempC = 23.5, p = 913.48, rh = 50 *)
Lemma env_group_scaled_witness :
  let dec := fst (Decoder RefLog.log
                    [x17; x0d; xf8; x00; x42; x17; x80; x59; x35; x80]
                    JUndef 1) in
  dec !! "tempC" = Some (JNum 23.5) ∧ dec !! "p" = Some (JNum 913.48)
  ∧ dec !! "rh" = Some (JNum 50).
Proof.
  apply (env_group_scaled RefLog.log
           [x17; x0d; xf8; x00; x42; x17; x80; x59; x35; x80] JUndef x17 0x8
           x17 x80 x59 x35 x80 eq_refl recognized_0x17);
    first [reflexivity | in_list].
Defined.

(** [14 08 F5 9B 5E 5F 02]: the humidity byte 2 is floored to the ratio
    0.01 *)
Lemma env_dewpoint_from_bytes_witness :
  fst (Decoder RefLog.log [x14; x08; xf5; x9b; x5e; x5f; x02] JUndef 1)
    !! "tDewC"
  = Some (JNum (magnus RefLog.log 243.04 17.625 (-10.39453125) 0.01)).
Proof.
  apply (env_dewpoint_from_bytes RefLog.log
           [x14; x08; xf5; x9b; x5e; x5f; x02] JUndef x14 0x8 xf5 x9b x02
           eq_refl recognized_0x14); first [reflexivity | in_list].
Defined.

(** [11 08 01 DB]: lux = 475 *)
Lemma lux_unscaled_witness :
  fst (Decoder RefLog.log [x11; x08; x01; xdb] JUndef 1) !! "lux"
  = Some (JNum 475).
Proof.
  apply (lux_unscaled RefLog.log [x11; x08; x01; xdb] JUndef x11 0x8 x01 xdb
           eq_refl recognized_0x11); first [reflexivity | in_list].
Defined.

(** [14 05 F8 00 42]: boot = 66; [14 04]: boot is undefined *)
Lemma boot_counter_witness :
  fst (Decoder RefLog.log [x14; x05; xf8; x00; x42] JUndef 1) !! "boot"
  = Some (JNum 66)
  ∧ fst (Decoder RefLog.log [x14; x04] JUndef 1) !! "boot" = Some JUndef.
Proof.
  split.
  - destruct (boot_counter RefLog.log [x14; x05; xf8; x00; x42] JUndef x14)
      as [Hboot _]; [reflexivity|in_list|reflexivity|].
    exact (Hboot x42 eq_refl).
  - destruct (boot_counter RefLog.log [x14; x04] JUndef x14)
      as [_ Hboot]; [reflexivity|in_list|reflexivity|].
    exact (Hboot eq_refl).
Defined.

(** [14 20 00 05 00 07]: powerUsedCount = 5, powerSourcedCount = 7 *)
Lemma power_counts_unscaled_witness :
  let dec := fst (Decoder RefLog.log [x14; x20; x00; x05; x00; x07]
                    JUndef 1) in
  dec !! "powerUsedCount" = Some (JNum 5)
  ∧ dec !! "powerSourcedCount" = Some (JNum 7).
Proof.
  exact (power_counts_unscaled RefLog.log [x14; x20; x00; x05; x00; x07]
           JUndef x00 x05 x00 x07 eq_refl eq_refl eq_refl eq_refl eq_refl
           eq_refl).
Defined.

(** [14 40 F9 07 E9 AF]: the rates are 8124.609375 and 4357.6171875 *)
Lemma power_rates_minifloat_witness :
  let dec := fst (Decoder RefLog.log [x14; x40; xf9; x07; xe9; xaf]
                    JUndef 1) in
  dec !! "powerUsedPerHour" = Some (JNum 8124.609375)
  ∧ dec !! "powerSourcedPerHour" = Some (JNum 4357.6171875).
Proof.
  exact (power_rates_minifloat RefLog.log [x14; x40; xf9; x07; xe9; xaf]
           JUndef xf9 x07 xe9 xaf eq_refl eq_refl eq_refl eq_refl eq_refl
           eq_refl).
Defined.

(** [15 20 FF 80]: tWater = -0.5 *)
Lemma water_temperature_0x15_signed_witness :
  fst (Decoder RefLog.log [x15; x20; xff; x80] JUndef 1) !! "tWater"
  = Some (JNum (-0.5)).
Proof.
  exact (water_temperature_0x15_signed RefLog.log [x15; x20; xff; x80]
           JUndef xff x80 eq_refl eq_refl eq_refl eq_refl).
Defined.

(** [15 40 F9 1B EC]: tSoil = -6.89453125, rhSoil = 92.1875 *)
Lemma soil_group_0x15_witness :
  let dec := fst (Decoder RefLog.log [x15; x40; xf9; x1b; xec] JUndef 1) in
  dec !! "tSoil" = Some (JNum (-6.89453125))
  ∧ dec !! "rhSoil" = Some (JNum 92.1875)
  ∧ dec !! "tSoilDew" =
    Some (JNum (magnus RefLog.log 243.04 17.625 (-6.89453125) 0.921875)).
Proof.
  exact (soil_group_0x15 RefLog.log [x15; x40; xf9; x1b; xec] JUndef
           xf9 x1b xec eq_refl eq_refl eq_refl eq_refl eq_refl).
Defined.

(** [11 20 F9 1B EC]: tSoil = 249.10546875, rhSoil = 92.1875 *)
Lemma soil_group_0x11_witness :
  let dec := fst (Decoder RefLog.log [x11; x20; xf9; x1b; xec] JUndef 1) in
  dec !! "tSoil" = Some (JNum 249.10546875)
  ∧ dec !! "rhSoil" = Some (JNum 92.1875)
  ∧ dec !! "tSoilDew" =
    Some (JNum (magnus RefLog.log 243.04 17.625 249.10546875 0.921875)).
Proof.
  exact (soil_group_0x11 RefLog.log [x11; x20; xf9; x1b; xec] JUndef
           xf9 x1b xec eq_refl eq_refl eq_refl eq_refl eq_refl).
Defined.

(** [14 01 18 00] followed by [FF FF] *)
Lemma trailing_bytes_ignored_witness :
  Decoder RefLog.log ([x14; x01; x18; x00] ++ [xff; xff]) JUndef 1
  = Decoder RefLog.log [x14; x01; x18; x00] JUndef 1.
Proof.
  apply (trailing_bytes_ignored RefLog.log [x14; x01; x18; x00] [xff; xff]
           JUndef 1).
  vm_compute. discriminate.
Defined.

(** [14 01 18 00] and [14 81 18 00] *)
Lemma unused_bits_ignored_witness :
  Decoder RefLog.log [x14; x01; x18; x00] JUndef 1
  = Decoder RefLog.log [x14; x81; x18; x00] JUndef 1.
Proof.
  apply (unused_bits_ignored RefLog.log x14 x01 x81 [x18; x00] JUndef
           recognized_0x14).
  intros bit g. cbn [layout]. rewrite !elem_of_cons, elem_of_nil.
  intros [H|[H|[H|[H|[H|[H|[H|[]]]]]]]]; injection H as -> _; reflexivity.
Defined.

(** [14 05 F8 00 42] and [17 05 F8 00 42] *)
Lemma common_groups_agree_witness :
  fst (Decoder RefLog.log [x14; x05; xf8; x00; x42] JUndef 1)
  = fst (Decoder RefLog.log [x17; x05; xf8; x00; x42] JUndef 1).
Proof.
  apply (common_groups_agree RefLog.log x14 x17 x05 [xf8; x00; x42] JUndef);
    first [reflexivity | in_list].
Defined.

(** [17 20 F9 07]: aqi is present, so the format byte is 0x17 *)
Lemma format_specific_keys_witness :
  index [x17; x20; xf9; x07] 0 = Some x17.
Proof.
  refine (proj1 (format_specific_keys RefLog.log [x17; x20; xf9; x07]
                   JUndef 1 "aqi" _) eq_refl).
  vm_compute. eexists. reflexivity.
Defined.

(** [14 11 18 00 01]: lux is selected and its second byte is missing *)
Lemma truncated_field_is_NaN_witness :
  fst (Decoder RefLog.log [x14; x11; x18; x00; x01] JUndef 1) !! "lux"
  = Some (JNum nan).
Proof.
  apply (truncated_field_is_NaN RefLog.log [x14; x11; x18; x00; x01] JUndef
           x14 0x10 Lux "lux" eq_refl recognized_0x14);
    first [reflexivity | in_list].
Defined.

(** [17 20 F9]: aqi is selected and its second byte is missing *)
Lemma truncated_minifloat_is_zero_witness :
  fst (Decoder RefLog.log [x17; x20; xf9] JUndef 1) !! "aqi" = Some (JNum 0).
Proof.
  apply (truncated_minifloat_is_zero RefLog.log [x17; x20; xf9] JUndef
           x17 0x20 Aqi "aqi" eq_refl recognized_0x17);
    first [reflexivity | in_list].
Defined.

(** [14 04]: boot is undefined *)
Lemma value_types_witness :
  JUndef = JUndef ∨ ∃ b, JUndef = JNum (float_of_Z (byte_val b)).
Proof.
  refine (proj1 (proj2 (value_types RefLog.log [x14; x04] JUndef 1 "boot"
                          JUndef _)) eq_refl).
  vm_compute. reflexivity.
Defined.

(** [14 01 18 00]: vBat = 1.5 *)
Lemma voltages_bounded_witness :
  PrimFloat.is_nan 1.5 = true
  ∨ (-8 <=? 1.5)%float = true ∧ (1.5 <? 8)%float = true.
Proof.
  apply (voltages_bounded RefLog.log [x14; x01; x18; x00] JUndef 1 "vBat").
  - apply list_elem_of_here.
  - vm_compute. reflexivity.
Defined.

(** [15 20 FF 80]: tWater = -0.5 *)
Lemma signed_temperatures_bounded_witness :
  PrimFloat.is_nan (-0.5) = true
  ∨ (-128 <=? -0.5)%float = true ∧ (-0.5 <? 128)%float = true.
Proof.
  apply (signed_temperatures_bounded RefLog.log [x15; x20; xff; x80] JUndef 1
           "tWater").
  - right. split; [apply list_elem_of_here|reflexivity].
  - vm_compute. reflexivity.
Defined.

(** [11 10 F9 1B]: the raw value 0xF91B gives tWater = 249.10546875 *)
Lemma temperatures_0x11_nonnegative_witness :
  PrimFloat.is_nan 249.10546875 = true
  ∨ (0 <=? 249.10546875)%float = true ∧ (249.10546875 <? 256)%float = true.
Proof.
  apply (temperatures_0x11_nonnegative RefLog.log [x11; x10; xf9; x1b]
           JUndef 1 "tWater").
  - reflexivity.
  - apply list_elem_of_here.
  - vm_compute. reflexivity.
Defined.

(** [17 0D F8 00 42 17 80 59 35 80]: p = 913.48 *)
Lemma humidity_pressure_bounded_witness :
  PrimFloat.is_nan 913.48 = true
  ∨ (0 <=? 913.48)%float = true ∧ (913.48 <=? 2621.4)%float = true.
Proof.
  refine (proj2 (humidity_pressure_bounded RefLog.log
                   [x17; x0d; xf8; x00; x42; x17; x80; x59; x35; x80]
                   JUndef 1 "p" 913.48 _) eq_refl).
  vm_compute. reflexivity.
Defined.

(** [17 20 F9 07]: aqi = 288.875 *)
Lemma minifloat_values_bounded_witness :
  (0 <=? 288.875)%float = true ∧ (288.875 <=? 511.875)%float = true.
Proof.
  refine (proj1 (minifloat_values_bounded RefLog.log [x17; x20; xf9; x07]
                   JUndef 1 "aqi" 288.875 _) eq_refl).
  vm_compute. reflexivity.
Defined.

(** [14 05 F8 00 42] holds its five bytes: boot is defined *)
Lemma complete_message_defined_witness :
  JNum 66 ≠ JUndef ∧ ∀ x, JNum 66 = JNum x → PrimFloat.is_nan x = false.
Proof.
  apply (complete_message_defined RefLog.log [x14; x05; xf8; x00; x42]
           JUndef 1 "boot").
  - vm_compute. discriminate.
  - rewrite !not_elem_of_cons. repeat split; try discriminate.
    apply not_elem_of_nil.
  - vm_compute. reflexivity.
Defined.
